(** * Gendolf bot: usage gating, conversation memory and the AI call wrapper

    A shallow embedding of [bot.py].

    - Python integers are [Z]; Python strings are [string], read as the
      UTF-8 bytes of the text.
    - The usage table (a dict) is a [gmap string Z], the pro set a
      [gset string], the per-group conversation memory (a defaultdict of
      lists) a [gmap Z (list turn)].
    - Values that come from outside the program (documents read from
      disk or returned by a provider) stay dynamically typed, as [json];
      the text of a file or of a response body is represented by what
      [json.loads] makes of it ([stored]).
    - The clock, [bot.me()], the network and the delivery of outgoing
      messages are inputs of a handler run ([Env]); what a run sends,
      requests and logs is collected in a list of [event]s.
    - Handlers run one at a time: the interleaving of two handlers at an
      [await] is not modelled. *)

From Stdlib Require Import Ascii String.
From stdpp Require Import base numbers strings pretty list gmap fin_maps fin_sets.

Set Warnings "-register-all".

Local Open Scope Z_scope.
Local Open Scope string_scope.
Local Open Scope list_scope.

(** ** Python string helpers *)

(** [str(n)] for an int: decimal digits with a leading minus sign. *)
Definition str (n : Z) : string := pretty n.

(** [s.endswith(suffix)]: some tail of [s] is [suffix]. *)
Fixpoint endswith (s suffix : string) : bool :=
  if String.eqb s suffix then true
  else match s with
       | EmptyString => false
       | String _ s' => endswith s' suffix
       end.

(** [s.startswith(p)]. *)
Definition startswith (s p : string) : bool := String.prefix p s.

(** [sub in s]: [sub] starts at some position of [s]. *)
Fixpoint contains (s sub : string) : bool :=
  if String.prefix sub s then true
  else match s with
       | EmptyString => false
       | String _ s' => contains s' sub
       end.

(** ** The UTC calendar day and [strftime("%Y-%m-%d")] *)

Record date := Date { year : N; month : N; day : N }.

(** The dates [datetime.now] can return for which [%Y] prints four digits. *)
Definition valid_date (d : date) : Prop :=
  (1000 ≤ year d ≤ 9999)%N ∧ (1 ≤ month d ≤ 12)%N ∧ (1 ≤ day d ≤ 31)%N.

Definition digit (n : N) : ascii := pretty_N_char (n `mod` 10)%N.

(** Zero-padded fields of fixed width: [%Y] (4), [%m] (2), [%d] (2). *)
Definition strftime (d : date) : string :=
  String (digit (year d `div` 1000)) (String (digit (year d `div` 100))
  (String (digit (year d `div` 10)) (String (digit (year d))
  (String "-" (String (digit (month d `div` 10)) (String (digit (month d))
  (String "-" (String (digit (day d `div` 10)) (String (digit (day d))
  EmptyString))))))))).

(** ** Usage tracking *)

Record UsageTracker := mkTracker {
  file : string;
  pro_file : string;
  usage : gmap string Z;
  pro_groups : gset string
}.

(** [UsageTracker._today], given the UTC date the clock shows. *)
Definition _today (now : date) : string := strftime now.

(** The counter key [f"{chat_id}:{today}"]. *)
Definition usage_key (chat_id : Z) (today : string) : string :=
  str chat_id +:+ ":" +:+ today.

(** [UsageTracker.can_use]: (allowed, remaining). *)
Definition can_use (FREE_LIMIT : Z) (self : UsageTracker) (now : date)
    (chat_id : Z) : bool * Z :=
  if bool_decide (str chat_id ∈ pro_groups self) then (true, 999)
  else
    let today := _today now in
    let key := usage_key chat_id today in
    let used := default 0 (usage self !! key) in
    let remaining := Z.max 0 (FREE_LIMIT - used) in
    (bool_decide (remaining > 0), remaining).

(** ** Dynamically typed values: JSON documents

    What [json.loads] returns.  The members of an object are listed in
    document order; a later member with the same name overrides an
    earlier one, as in the dict [json.loads] builds. *)

Inductive json :=
  | JNull
  | JBool (b : bool)
  | JInt (n : Z)
  | JFloat (lexeme : string)
  | JStr (s : string)
  | JArr (items : list json)
  | JObj (members : list (string * json)).

(** Raised exceptions, by class: [except Exception] catches the first
    kind only (the second stands for [KeyboardInterrupt], [SystemExit],
    [asyncio.CancelledError]). *)
Inductive raised :=
  | Exception (what : string)
  | BaseException (what : string).

(** A call either returns or raises. *)
Inductive result (A : Type) :=
  | Return (a : A)
  | Raise (e : raised).
Arguments Return {A} a.
Arguments Raise {A} e.

Global Instance result_ret : MRet result := λ A a, Return a.
Global Instance result_bind : MBind result := λ A B f r,
  match r with
  | Return a => f a
  | Raise e => Raise e
  end.

(** Text held by a file or an HTTP response body, as seen through
    [read]/[read_text] followed by [json.loads]: reading fails, or the
    text is rejected by the decoder, or it decodes to a document. *)
Inductive stored :=
  | Unreadable
  | NotJson
  | Json (doc : json).

(** [json.loads(f.read_text())] / [json.loads(resp.read())]. *)
Definition json_loads (c : stored) : result json :=
  match c with
  | Unreadable => Raise (Exception "OSError")
  | NotJson => Raise (Exception "JSONDecodeError")
  | Json doc => Return doc
  end.

(** [obj[key]] for a string key. *)
Fixpoint dict_get (key : string) (members : list (string * json)) : option json :=
  match members with
  | [] => None
  | (k, v) :: rest =>
      match dict_get key rest with
      | Some v' => Some v'
      | None => if String.eqb k key then Some v else None
      end
  end.

Definition subscript_key (v : json) (key : string) : result json :=
  match v with
  | JObj members =>
      match dict_get key members with
      | Some x => Return x
      | None => Raise (Exception "KeyError")
      end
  | _ => Raise (Exception "TypeError")
  end.

(** [obj[0]]. *)
Definition subscript_0 (v : json) : result json :=
  match v with
  | JArr (x :: _) => Return x
  | JArr [] => Raise (Exception "IndexError")
  | JStr (String c _) => Return (JStr (String c EmptyString))
  | JStr EmptyString => Raise (Exception "IndexError")
  | JObj _ => Raise (Exception "KeyError")
  | _ => Raise (Exception "TypeError")
  end.

Definition hashable (v : json) : bool :=
  match v with
  | JArr _ | JObj _ => false
  | _ => true
  end.

Fixpoint chars (s : string) : list json :=
  match s with
  | EmptyString => []
  | String c s' => JStr (String c EmptyString) :: chars s'
  end.

(** The elements [set(v)] is built from: iteration over [v], each
    element hashable. *)
Definition py_set (v : json) : result (list json) :=
  items ← match v with
          | JArr items => Return items
          | JObj members => Return (JStr <$> members.*1)
          | JStr s => Return (chars s)
          | _ => Raise (Exception "TypeError")
          end;
  if forallb hashable items then Return items
  else Raise (Exception "TypeError").

(** ** The usage store on disk *)

(** The data directory: which files exist and what they hold. *)
Abbreviation disk := (gmap string stored).

(** [data_dir / name]. *)
Definition path_join (data_dir name : string) : string :=
  data_dir +:+ "/" +:+ name.

(** The attributes of a tracker right after [_load], before any typing
    assumption: [usage] is whatever document the file held, [pro_groups]
    the elements the set was built from. *)
Record loaded := mkLoaded {
  loaded_usage : json;
  loaded_pro_groups : list json
}.

(** [UsageTracker._load], run on the attributes [__init__] has just set
    ([usage = {}], [pro_groups = set()]). *)
Definition _load (file pro_file : string) (d : disk) : result loaded :=
  usage ← match d !! file with
          | Some c => json_loads c
          | None => Return (JObj [])
          end;
  pro ← match d !! pro_file with
        | Some c => doc ← json_loads c; py_set doc
        | None => Return []
        end;
  Return (mkLoaded usage pro).

(** The typed reading of the loaded attributes: a str-to-int table and a
    set of strings. *)
Definition counters_of (v : json) : option (gmap string Z) :=
  match v with
  | JObj members =>
      kvs ← mapM (λ kv : string * json,
                    match kv.2 with JInt n => Some (kv.1, n) | _ => None end)
                 members;
      Some (list_to_map (reverse kvs))
  | _ => None
  end.

Definition groups_of (items : list json) : option (gset string) :=
  names ← mapM (λ v, match v with JStr s => Some s | _ => None end) items;
  Some (list_to_set names).

(** [UsageTracker.__init__]: the tracker object, when the loaded
    attributes have the types the methods expect. *)
Definition UsageTracker_init (data_dir : string) (d : disk)
    : result (option UsageTracker) :=
  let file := path_join data_dir "usage.json" in
  let pro_file := path_join data_dir "pro_groups.json" in
  l ← _load file pro_file d;
  Return (u ← counters_of (loaded_usage l);
          p ← groups_of (loaded_pro_groups l);
          Some (mkTracker file pro_file u p)).

(** [json.dumps(self.usage)]; the member order of the written object is
    that of the table's enumeration. *)
Definition dumps_usage (u : gmap string Z) : json :=
  JObj ((λ kv : string * Z, (kv.1, JInt kv.2)) <$> map_to_list u).

(** [UsageTracker._save]. *)
Definition _save (self : UsageTracker) (d : disk) : disk :=
  <[file self := Json (dumps_usage (usage self))]> d.

(** [UsageTracker.record]. *)
Definition record (self : UsageTracker) (now : date) (chat_id : Z) (d : disk)
    : UsageTracker * disk :=
  let today := _today now in
  let key := usage_key chat_id today in
  let self' := mkTracker (file self) (pro_file self)
                 (<[key := default 0 (usage self !! key) + 1]> (usage self))
                 (pro_groups self) in
  (self', _save self' d).

(** [UsageTracker.add_pro]. *)
Definition add_pro (self : UsageTracker) (chat_id : Z) (d : disk)
    : UsageTracker * disk :=
  let self' := mkTracker (file self) (pro_file self) (usage self)
                 (pro_groups self ∪ {[str chat_id]}) in
  (self', <[pro_file self' := Json (JArr (JStr <$> elements (pro_groups self')))]> d).

(** Python's [sum] over a generator of ints. *)
Definition py_sum (l : list Z) : Z := foldl Z.add 0 l.

Record stats := mkStats {
  active_groups_today : Z;
  total_messages : Z;
  stats_pro_groups : Z
}.

(** [UsageTracker.get_stats]. *)
Definition get_stats (self : UsageTracker) (now : date) : stats :=
  let today := _today now in
  let active_today :=
    py_sum ((λ _, 1) <$> filter (λ k, endswith k (":" +:+ today) = true)
                                (map_to_list (usage self)).*1) in
  let total_msgs := py_sum (map_to_list (usage self)).*2 in
  mkStats active_today total_msgs (Z.of_nat (size (pro_groups self))).

(** ** The AI responder *)

(** A stored conversation turn: [{"role": "user", "name": .., "content": ..}]
    or [{"role": "assistant", "content": ..}].  The assistant content is
    whatever value the provider call returned. *)
Inductive turn :=
  | UserTurn (name content : string)
  | AssistantTurn (content : json).

(** An entry of the message list sent to the provider. *)
Record api_message := mkMsg { msg_role : string; msg_content : json }.

Record request := mkRequest {
  url : string;
  headers : list (string * string);
  data : json;
  timeout : Z
}.

(** What a run leaves behind outside the program state. *)
Inductive event :=
  | HttpRequest (r : request)
  | LogError (msg : string)
  | Answer (chat : Z) (body : json)
  | Reply (chat : Z) (body : json).

Record AIChat := mkAIChat {
  provider : string;
  api_key : string;
  model : string;
  memory : gmap Z (list turn);
  max_memory : nat
}.

(** [AIChat.__init__]. *)
Definition AIChat_init (provider api_key model : string) : AIChat :=
  mkAIChat provider api_key model ∅ 20.

(** The slice [l[-n:]]; [l[-0:]] is the whole list. *)
Definition last_n {A} (n : nat) (l : list A) : list A :=
  match n with
  | O => l
  | S _ => drop (length l - n) l
  end.

(** The network: what [urlopen] does with a request. *)
Abbreviation network := (request → result stored).

Definition dumps_messages (messages : list api_message) : json :=
  JArr ((λ m, JObj [("role", JStr (msg_role m)); ("content", msg_content m)])
          <$> messages).

(** [AIChat._call_anthropic]: the request issued and the value returned. *)
Definition _call_anthropic (urlopen : network) (self : AIChat)
    (system : string) (messages : list api_message) : list event * result json :=
  let url := "https://api.anthropic.com/v1/messages" in
  let headers := [("x-api-key", api_key self);
                  ("anthropic-version", "2023-06-01");
                  ("content-type", "application/json")] in
  let data := JObj [("model", JStr (model self));
                    ("max_tokens", JInt 1000);
                    ("system", JStr system);
                    ("messages", dumps_messages messages)] in
  let req := mkRequest url headers data 30 in
  ([HttpRequest req],
   resp ← urlopen req;
   result ← json_loads resp;
   content ← subscript_key result "content";
   block ← subscript_0 content;
   subscript_key block "text").

(** [AIChat._call_openai]. *)
Definition _call_openai (urlopen : network) (self : AIChat)
    (system : string) (messages : list api_message) : list event * result json :=
  let url := "https://api.openai.com/v1/chat/completions" in
  let headers := [("Authorization", "Bearer " +:+ api_key self);
                  ("Content-Type", "application/json")] in
  let all_msgs := [mkMsg "system" (JStr system)] ++ messages in
  let data := JObj [("model", JStr (model self));
                    ("max_tokens", JInt 1000);
                    ("messages", dumps_messages all_msgs)] in
  let req := mkRequest url headers data 30 in
  ([HttpRequest req],
   resp ← urlopen req;
   result ← json_loads resp;
   choices ← subscript_key result "choices";
   choice ← subscript_0 choices;
   message ← subscript_key choice "message";
   subscript_key message "content").

Definition system_prompt (group_name : string) : string :=
  "You are Gendolf 🤓, a smart AI assistant in the Telegram group '" +:+ group_name +:+ "'. " +:+
  "Be helpful, concise, and friendly. Answer questions, help with tasks, and participate " +:+
  "in conversations naturally. Keep responses under 500 chars unless more detail is needed. " +:+
  "Use emoji sparingly. Respond in the same language as the question.".

Definition unknown_provider_text : string := "Unknown AI provider configured.".

Definition fallback_text : string :=
  "⚠️ AI temporarily unavailable. Try again in a moment.".

(** The first statements of [respond]: append the user turn, then cut
    the list to its last [max_memory] entries when it is longer. *)
Definition remember_user (self : AIChat) (chat_id : Z) (user_name message : string)
    : list turn :=
  let turns := default [] (memory self !! chat_id) ++ [UserTurn user_name message] in
  if (max_memory self <? length turns)%nat
  then last_n (max_memory self) turns
  else turns.

(** One iteration of the loop that builds [messages]. *)
Definition build_message (m : turn) : api_message :=
  match m with
  | UserTurn name content =>
      mkMsg "user" (JStr ("[" +:+ name +:+ "]: " +:+ content))
  | AssistantTurn content => mkMsg "assistant" content
  end.

Definition set_memory (self : AIChat) (chat_id : Z) (turns : list turn) : AIChat :=
  mkAIChat (provider self) (api_key self) (model self)
           (<[chat_id := turns]> (memory self)) (max_memory self).

(** The provider dispatch at the head of the [try] block: the value
    assigned to [resp], or the exception raised instead. *)
Definition call_provider (urlopen : network) (self : AIChat)
    (system : string) (messages : list api_message) : list event * result json :=
  if String.eqb (provider self) "anthropic"
  then _call_anthropic urlopen self system messages
  else if String.eqb (provider self) "openai"
  then _call_openai urlopen self system messages
  else ([], Return (JStr unknown_provider_text)).

(** [AIChat.respond]: the object afterwards, the events of the call, and
    the value returned or the exception that escapes. *)
Definition respond (urlopen : network) (self : AIChat) (chat_id : Z)
    (user_name message group_name : string) : AIChat * list event * result json :=
  let turns := remember_user self chat_id user_name message in
  let self1 := set_memory self chat_id turns in
  let system := system_prompt group_name in
  let messages := build_message <$> last_n 10 turns in
  let '(evs, r) := call_provider urlopen self1 system messages in
  match r with
  | Return resp =>
      (set_memory self1 chat_id (turns ++ [AssistantTurn resp]), evs, Return resp)
  | Raise (Exception e) =>
      (self1, evs ++ [LogError ("AI error: " +:+ e)], Return (JStr fallback_text))
  | Raise (BaseException e) =>
      (self1, evs, Raise (BaseException e))
  end.

(** ** More Python string methods, used by the handlers *)

Fixpoint string_drop (n : nat) (s : string) : string :=
  match n, s with
  | O, _ => s
  | S n', String _ s' => string_drop n' s'
  | S _, EmptyString => EmptyString
  end.

Definition utf8 (bytes : list nat) : string :=
  foldr (λ b s, String (ascii_of_nat b) s) EmptyString bytes.

(** The characters [str.strip()] removes, as UTF-8 byte sequences:
    U+0009..U+000D, U+001C..U+0020, U+0085, U+00A0, U+1680,
    U+2000..U+200A, U+2028, U+2029, U+202F, U+205F, U+3000. *)
Definition whitespace : list string :=
  (utf8 <$> [[9]; [10]; [11]; [12]; [13]; [28]; [29]; [30]; [31]; [32];
             [194; 133]; [194; 160]; [225; 154; 128];
             [226; 128; 128]; [226; 128; 129]; [226; 128; 130];
             [226; 128; 131]; [226; 128; 132]; [226; 128; 133];
             [226; 128; 134]; [226; 128; 135]; [226; 128; 136];
             [226; 128; 137]; [226; 128; 138]; [226; 128; 168];
             [226; 128; 169]; [226; 128; 175]; [226; 129; 159];
             [227; 128; 128]])%nat.

Fixpoint strip_go (fuel : nat) (ws : list string) (s : string) : string :=
  match fuel with
  | O => s
  | S fuel' =>
      match List.find (λ w, String.prefix w s) ws with
      | Some w => strip_go fuel' ws (string_drop (String.length w) s)
      | None => s
      end
  end.

Definition lstrip (s : string) : string :=
  strip_go (String.length s) whitespace s.

Definition rstrip (s : string) : string :=
  String.rev (strip_go (String.length s) (String.rev <$> whitespace) (String.rev s)).

(** [s.strip()]. *)
Definition strip (s : string) : string := rstrip (lstrip s).

Definition may_replace (count : option nat) : bool :=
  match count with Some O => false | _ => true end.

Definition one_less (count : option nat) : option nat :=
  match count with Some n => Some (pred n) | None => None end.

(** Replacement of a non-empty [old], scanning left to right; [skip]
    counts the characters of a match still to be passed over. *)
Fixpoint replace_go (old new : string) (count : option nat) (skip : nat)
    (s : string) : string :=
  match s with
  | EmptyString => EmptyString
  | String c s' =>
      match skip with
      | S k => replace_go old new count k s'
      | O =>
          if may_replace count && String.prefix old s
          then new +:+ replace_go old new (one_less count) (String.length old - 1) s'
          else String c (replace_go old new count O s')
      end
  end.

(** Replacement of the empty string: [new] goes before each character
    and at the end. *)
Fixpoint replace_empty (new : string) (count : option nat) (s : string) : string :=
  if may_replace count then
    match s with
    | EmptyString => new
    | String c s' => new +:+ String c (replace_empty new (one_less count) s')
    end
  else s.

(** [s.replace(old, new)] ([count = None]) and [s.replace(old, new, n)]. *)
Definition replace (old new : string) (count : option nat) (s : string) : string :=
  match old with
  | EmptyString => replace_empty new count s
  | String _ _ => replace_go old new count O s
  end.

(** [x or default] for a string that may be [None]. *)
Definition or_default (x : option string) (default : string) : string :=
  match x with
  | Some (String c s) => String c s
  | _ => default
  end.

(** A string that may be [None], inside an f-string. *)
Definition fmt (x : option string) : string :=
  match x with
  | Some s => s
  | None => "None"
  end.

Definition nl : string := String "010"%char EmptyString.

(** ** The handlers *)

(** The fields of an incoming [Message] the handlers read. *)
Record Message := mkMessage {
  text : string;
  chat_id : Z;
  chat_type : string;
  chat_title : option string;
  from_full_name : string;
  reply_to_from_id : option Z
}.

Record BotInfo := mkBotInfo { username : option string; id : Z }.

(** What the outside world does during one handler run: the UTC date
    the clock shows when [can_use] and when [record] read it, the answer
    of [bot.me()], the network, and the delivery of an outgoing message. *)
Record Env := mkEnv {
  clock_can_use : date;
  clock_record : date;
  bot_me : result BotInfo;
  urlopen : network;
  deliver : event → result unit
}.

(** The module-level singletons [tracker] and [ai], the data directory,
    and the events so far. *)
Record World := mkWorld {
  tracker : UsageTracker;
  ai : AIChat;
  files : disk;
  trace : list event
}.

(** A handler body: it changes the world and returns or raises. *)
Definition M (A : Type) : Type := World → World * result A.

Global Instance M_ret : MRet M := λ A a w, (w, Return a).
Global Instance M_bind : MBind M := λ A B f m w,
  let '(w1, r) := m w in
  match r with
  | Return a => f a w1
  | Raise e => (w1, Raise e)
  end.

Definition can_useM (FREE_LIMIT : Z) (env : Env) (chat : Z) : M (bool * Z) :=
  λ w, (w, Return (can_use FREE_LIMIT (tracker w) (clock_can_use env) chat)).

Definition recordM (env : Env) (chat : Z) : M unit :=
  λ w, let '(t, d) := record (tracker w) (clock_record env) chat (files w) in
       (mkWorld t (ai w) d (trace w), Return ()).

Definition respondM (env : Env) (chat : Z) (user_name message group_name : string)
    : M json :=
  λ w, let '(a, evs, r) := respond (urlopen env) (ai w) chat user_name message group_name in
       (mkWorld (tracker w) a (files w) (trace w ++ evs), r).

Definition send (env : Env) (e : event) : M unit :=
  λ w, (mkWorld (tracker w) (ai w) (files w) (trace w ++ [e]), deliver env e).

Definition meM (env : Env) : M BotInfo := λ w, (w, bot_me env).

Definition ask_limit_notice (FREE_LIMIT : Z) : string :=
  "⚠️ Daily free limit (" +:+ str FREE_LIMIT +:+ " messages) reached." +:+ nl +:+
  "Upgrade to Pro for unlimited: /upgrade".

Definition private_limit_notice : string :=
  "⚠️ Daily limit reached. /upgrade for unlimited.".

Definition group_limit_notice (FREE_LIMIT : Z) : string :=
  "⚠️ Daily free limit (" +:+ str FREE_LIMIT +:+ ") reached for this group." +:+ nl +:+
  "Admin can upgrade: /upgrade".

(** [cmd_ask]. *)
Definition cmd_ask (FREE_LIMIT : Z) (env : Env) (message : Message) : M unit :=
  let question := strip (replace "/ask" "" (Some 1%nat) (text message)) in
  if String.eqb question "" then
    send env (Answer (chat_id message) (JStr "Usage: /ask <your question>"))
  else
    '(allowed, remaining) ← can_useM FREE_LIMIT env (chat_id message);
    if negb allowed then
      send env (Answer (chat_id message) (JStr (ask_limit_notice FREE_LIMIT)))
    else
      recordM env (chat_id message);;
      let user_name := or_default (Some (from_full_name message)) "User" in
      let group_name := or_default (chat_title message) "Chat" in
      response ← respondM env (chat_id message) user_name question group_name;
      send env (Reply (chat_id message) response).

(** The two tests of [handle_message] for "addressed to the bot". *)
Definition is_mentioned (bot_username : option string) (text : string) : bool :=
  negb (String.eqb (or_default bot_username "") "")
  && contains text ("@" +:+ fmt bot_username).

Definition is_reply (bot_info : BotInfo) (message : Message) : bool :=
  match reply_to_from_id message with
  | Some sender => Z.eqb sender (id bot_info)
  | None => false
  end.

(** [handle_message]. *)
Definition handle_message (FREE_LIMIT : Z) (env : Env) (message : Message) : M unit :=
  if String.eqb (text message) "" then mret ()
  else if String.eqb (chat_type message) "private" then
    if negb (startswith (text message) "/") then
      '(allowed, remaining) ← can_useM FREE_LIMIT env (chat_id message);
      if negb allowed then
        send env (Answer (chat_id message) (JStr private_limit_notice))
      else
        recordM env (chat_id message);;
        response ← respondM env (chat_id message)
                     (or_default (Some (from_full_name message)) "User")
                     (text message) "Private Chat";
        send env (Reply (chat_id message) response)
    else mret ()
  else
    bot_info ← meM env;
    let bot_username := username bot_info in
    let mention := "@" +:+ fmt bot_username in
    if negb (is_mentioned bot_username (text message))
       && negb (is_reply bot_info message) then mret ()
    else
      '(allowed, remaining) ← can_useM FREE_LIMIT env (chat_id message);
      if negb allowed then
        send env (Reply (chat_id message) (JStr (group_limit_notice FREE_LIMIT)))
      else
        recordM env (chat_id message);;
        let text := strip (replace mention "" None (text message)) in
        let text := if String.eqb text "" then "Hi!" else text in
        let user_name := or_default (Some (from_full_name message)) "User" in
        let group_name := or_default (chat_title message) "Group" in
        response ← respondM env (chat_id message) user_name text group_name;
        send env (Reply (chat_id message) response).

(** ** The remaining stateful handlers *)

(** [s.split()]: the maximal runs of non-whitespace characters, in
    order; [skip] counts the bytes of a whitespace character still to be
    passed over, [cur] holds the current run backwards. *)
Fixpoint split_go (skip : nat) (cur : string) (s : string) : list string :=
  match s with
  | EmptyString => if String.eqb cur "" then [] else [String.rev cur]
  | String c s' =>
      match skip with
      | S k => split_go k cur s'
      | O =>
          match List.find (λ w, String.prefix w s) whitespace with
          | Some w =>
              (if String.eqb cur "" then [] else [String.rev cur])
              ++ split_go (String.length w - 1) "" s'
          | None => split_go O (String c cur) s'
          end
      end
  end.

Definition split (s : string) : list string := split_go O "" s.

(** A returned or raised value, inside a handler. *)
Definition liftR {A} (r : result A) : M A := λ w, (w, r).

(** Reading the module-level singletons. *)
Definition globals : M World := λ w, (w, Return w).

Definition add_proM (chat : Z) : M unit :=
  λ w, let '(t, d) := add_pro (tracker w) chat (files w) in
       (mkWorld t (ai w) d (trace w), Return ()).

(** [cmd_stats]; [clock_stats] is the UTC date the clock shows when
    [get_stats] reads it. *)
Definition cmd_stats (FREE_LIMIT : Z) (env : Env) (clock_stats : date)
    (message : Message) : M unit :=
  '(allowed, remaining) ← can_useM FREE_LIMIT env (chat_id message);
  w ← globals;
  let stats := get_stats (tracker w) clock_stats in
  let is_pro := bool_decide (str (chat_id message) ∈ pro_groups (tracker w)) in
  let status :=
    if is_pro then "⭐ Pro"
    else "Free (" +:+ str remaining +:+ "/" +:+ str FREE_LIMIT +:+ " remaining today)" in
  send env (Answer (chat_id message) (JStr (
    "📊 <b>Stats</b>" +:+ nl +:+ nl +:+
    "This group: " +:+ status +:+ nl +:+
    "Active groups today: " +:+ str (active_groups_today stats) +:+ nl +:+
    "Total messages served: " +:+ str (total_messages stats)))).

(** [cmd_admin_stats]; [from_id] is [message.from_user.id]. *)
Definition cmd_admin_stats (ADMIN_ID : Z) (env : Env) (clock_stats : date)
    (from_id : Z) (message : Message) : M unit :=
  if negb (Z.eqb from_id ADMIN_ID) then mret ()
  else
    w ← globals;
    let stats := get_stats (tracker w) clock_stats in
    send env (Answer (chat_id message) (JStr (
      "🔧 Admin Stats:" +:+ nl +:+
      "Active today: " +:+ str (active_groups_today stats) +:+ nl +:+
      "Total msgs: " +:+ str (total_messages stats) +:+ nl +:+
      "Pro groups: " +:+ str (stats_pro_groups stats) +:+ nl +:+
      "Memory groups: " +:+ str (Z.of_nat (size (memory (ai w))))))).

(** [cmd_admin_pro]; [int] is Python's conversion of a string to an
    integer, which returns the number or raises [ValueError]. *)
Definition cmd_admin_pro (ADMIN_ID : Z) (int : string → result Z) (env : Env)
    (from_id : Z) (message : Message) : M unit :=
  if negb (Z.eqb from_id ADMIN_ID) then mret ()
  else
    let parts := split (text message) in
    if (length parts <? 2)%nat then
      send env (Answer (chat_id message) (JStr "Usage: /admin_pro <chat_id>"))
    else
      chat ← liftR (int (default "" (parts !! 1%nat)));
      add_proM chat;;
      send env (Answer (chat_id message)
                  (JStr ("✅ Group " +:+ str chat +:+ " upgraded to Pro"))).

(** ** Drivers used to state the properties *)

(** [n] calls of [record] for the same group while the clock shows [now]. *)
Fixpoint record_n (n : nat) (self : UsageTracker) (now : date) (chat_id : Z)
    (d : disk) : UsageTracker * disk :=
  match n with
  | O => (self, d)
  | S k => let '(s, d') := record_n k self now chat_id d in record s now chat_id d'
  end.

(** One call of [respond], as a handler makes it. *)
Record call := mkCall {
  call_net : network;
  call_chat : Z;
  call_user : string;
  call_text : string;
  call_group : string
}.

Definition respond_call (self : AIChat) (c : call) : AIChat * list event * result json :=
  respond (call_net c) self (call_chat c) (call_user c) (call_text c) (call_group c).

(** A sequence of calls, one after the other, on the same object. *)
Definition respond_all (calls : list call) (self : AIChat) : AIChat :=
  foldl (λ a c, (respond_call a c).1.1) self calls.

(** The turns of a group, [self.memory[chat_id]]. *)
Definition turns_of (self : AIChat) (chat_id : Z) : list turn :=
  default [] (memory self !! chat_id).

(** A provider that always answers with one text block. *)
Definition anthropic_says (reply : string) : network :=
  λ _, Return (Json (JObj [("content",
                 JArr [JObj [("type", JStr "text"); ("text", JStr reply)]])])).

(** A provider that cannot be reached. *)
Definition connection_refused : network :=
  λ _, Raise (Exception "<urlopen error [Errno 111] Connection refused>").

(** The world after a refusal: one outgoing message more, nothing else. *)
Definition refused (w : World) (notice : event) : World :=
  mkWorld (tracker w) (ai w) (files w) (trace w ++ [notice]).

(** The same message handled once per environment, in order. *)
Definition attempts (FREE_LIMIT : Z) (envs : list Env) (message : Message)
    (w : World) : World :=
  foldl (λ w env, (handle_message FREE_LIMIT env message w).1) w envs.

(** An operation on the tracker: a [record] at some date, or an
    [add_pro]. *)
Inductive tracker_op :=
  | Record_at (now : date) (chat : Z)
  | Add_pro (chat : Z).

Definition run_op (st : UsageTracker * disk) (o : tracker_op) : UsageTracker * disk :=
  match o with
  | Record_at now chat => record st.1 now chat st.2
  | Add_pro chat => add_pro st.1 chat st.2
  end.

(** A history of operations, oldest first. *)
Definition run_ops (ops : list tracker_op) (st : UsageTracker * disk)
    : UsageTracker * disk :=
  foldl run_op st ops.

(** The requests among the events of a run. *)
Definition requests (evs : list event) : list request :=
  omap (λ e, match e with HttpRequest r => Some r | _ => None end) evs.

(** A provider that answers in the second response shape. *)
Definition openai_says (reply : json) : network :=
  λ _, Return (Json (JObj [("choices",
                 JArr [JObj [("message",
                   JObj [("role", JStr "assistant"); ("content", reply)])]])])).

(** The request is cancelled while it is awaited. *)
Definition cancelled : network := λ _, Raise (BaseException "CancelledError").

(** A stand-in for [int] in examples: an optional sign followed by ASCII
    digits is converted, any other text is rejected. *)
Fixpoint digits_value (acc : Z) (s : string) : option Z :=
  match s with
  | EmptyString => Some acc
  | String c s' =>
      match Ascii.is_nat c with
      | Some k => digits_value (10 * acc + Z.of_nat k) s'
      | None => None
      end
  end.

Definition int_of_decimal (s : string) : result Z :=
  let value digits :=
    match digits with
    | EmptyString => None
    | _ => digits_value 0 digits
    end in
  match s with
  | String "-" digits =>
      from_option (λ n, Return (- n)) (Raise (Exception "ValueError")) (value digits)
  | String "+" digits =>
      from_option Return (Raise (Exception "ValueError")) (value digits)
  | _ => from_option Return (Raise (Exception "ValueError")) (value s)
  end.

(** * Properties *)

(** A closed decidable proposition, by evaluation of its decision. *)
Ltac decide_closed := apply (bool_decide_unpack _); vm_compute; exact I.

(** ** Strings, dates and counter keys *)

Lemma app_String c s t : String c s +:+ t = String c (s +:+ t).
Proof. reflexivity. Qed.

Lemma app_Empty t : EmptyString +:+ t = t.
Proof. reflexivity. Qed.

Lemma length_app_s (a b : string) :
  String.length (a +:+ b) = (String.length a + String.length b)%nat.
Proof. induction a as [|x a IH]; [done|]. rewrite app_String. simpl. by f_equal. Qed.

(** Two concatenations with tails of equal length agree part by part. *)
Lemma app_inj_tail (a a' b b' : string) :
  a +:+ b = a' +:+ b' → String.length b = String.length b' → a = a' ∧ b = b'.
Proof.
  revert a'. induction a as [|x a IH]; intros [|x' a'] Heq Hlen.
  - done.
  - rewrite app_Empty in Heq. subst b. rewrite length_app_s in Hlen. simpl in Hlen. lia.
  - rewrite app_Empty in Heq. subst b'. rewrite length_app_s in Hlen. simpl in Hlen. lia.
  - rewrite !app_String in Heq. injection Heq as -> Heq.
    destruct (IH _ Heq Hlen) as [-> ->]. done.
Qed.

Lemma endswith_unfold (s suffix : string) :
  endswith s suffix =
  if String.eqb s suffix then true
  else match s with
       | EmptyString => false
       | String _ s' => endswith s' suffix
       end.
Proof. by destruct s. Qed.

Lemma endswith_spec (s suffix : string) :
  endswith s suffix = true ↔ ∃ p, s = p +:+ suffix.
Proof.
  induction s as [|c s IH]; rewrite endswith_unfold.
  - destruct (String.eqb_spec EmptyString suffix) as [<-|Hne].
    + split; [by exists EmptyString|done].
    + split; [done|]. intros [[|c p] Hp]; [by rewrite app_Empty in Hp|].
      by rewrite app_String in Hp.
  - destruct (String.eqb_spec (String c s) suffix) as [<-|Hne].
    + split; [by exists EmptyString|done].
    + rewrite IH. split.
      * intros [p ->]. exists (String c p). by rewrite app_String.
      * intros [[|c' p] Hp]; [by rewrite app_Empty in Hp|].
        rewrite app_String in Hp. injection Hp as -> ->. by exists p.
Qed.

Lemma strftime_length (d : date) : String.length (strftime d) = 10%nat.
Proof. reflexivity. Qed.

Lemma digit_inj (a b : N) : digit a = digit b → (a `mod` 10 = b `mod` 10)%N.
Proof.
  unfold digit. intros H. apply pretty_N_char_inj in H; [done|..];
    by apply N.mod_lt.
Qed.

Lemma digits_step (n n' : N) :
  (n `div` 10 = n' `div` 10)%N → (n `mod` 10 = n' `mod` 10)%N → n = n'.
Proof.
  intros Hq Hr. rewrite (N.div_mod n 10), (N.div_mod n' 10) by done.
  by rewrite Hq, Hr.
Qed.

Lemma four_digits (y y' : N) :
  (y ≤ 9999)%N → (y' ≤ 9999)%N →
  ((y `div` 1000) `mod` 10 = (y' `div` 1000) `mod` 10)%N →
  ((y `div` 100) `mod` 10 = (y' `div` 100) `mod` 10)%N →
  ((y `div` 10) `mod` 10 = (y' `div` 10) `mod` 10)%N →
  (y `mod` 10 = y' `mod` 10)%N → y = y'.
Proof.
  intros Hy Hy' H3 H2 H1 H0.
  assert (∀ n, n `div` 1000 = ((n `div` 10) `div` 10) `div` 10)%N as E3
    by (intros n; by rewrite !N.Div0.div_div).
  assert (∀ n, n `div` 100 = (n `div` 10) `div` 10)%N as E2
    by (intros n; by rewrite !N.Div0.div_div).
  rewrite !E3 in H3. rewrite !E2 in H2.
  do 4 (apply digits_step; [|done]).
  rewrite !N.Div0.div_div. simpl.
  rewrite (N.div_small y), (N.div_small y') by lia. done.
Qed.

Lemma two_digits (m m' : N) :
  (m ≤ 99)%N → (m' ≤ 99)%N →
  ((m `div` 10) `mod` 10 = (m' `div` 10) `mod` 10)%N →
  (m `mod` 10 = m' `mod` 10)%N → m = m'.
Proof.
  intros Hm Hm' H1 H0.
  do 2 (apply digits_step; [|done]).
  rewrite !N.Div0.div_div. simpl.
  rewrite (N.div_small m), (N.div_small m') by lia. done.
Qed.

(** The day is determined by its formatted text. *)
Lemma strftime_inj (d d' : date) :
  valid_date d → valid_date d' → strftime d = strftime d' → d = d'.
Proof.
  destruct d as [y m a], d' as [y' m' a'].
  unfold valid_date, strftime; simpl.
  intros (Hy & Hm & Ha) (Hy' & Hm' & Ha') Heq.
  injection Heq as H1 H2 H3 H4 H5 H6 H7 H8.
  apply digit_inj in H1, H2, H3, H4, H5, H6, H7, H8.
  f_equal; [apply four_digits|apply two_digits..]; done || lia.
Qed.

Lemma usage_key_inj (g g' : Z) (d d' : date) :
  usage_key g (_today d) = usage_key g' (_today d') →
  g = g' ∧ strftime d = strftime d'.
Proof.
  unfold usage_key, _today. intros Heq.
  apply app_inj_tail in Heq as [Hg Hd].
  - split; [exact (inj pretty _ _ Hg)|]. exact (inj (String.app ":") _ _ Hd).
  - by rewrite !length_app_s, !strftime_length.
Qed.

Lemma usage_key_other_day (g g' : Z) (d d' : date) :
  valid_date d → valid_date d' → d' ≠ d →
  usage_key g' (_today d') ≠ usage_key g (_today d).
Proof.
  intros Hd Hd' Hne Heq. apply usage_key_inj in Heq as [_ Heq].
  by apply Hne, strftime_inj.
Qed.

(** ** The usage counters *)

Lemma record_usage (self : UsageTracker) now g d :
  usage (record self now g d).1 =
  <[usage_key g (_today now) :=
      default 0 (usage self !! usage_key g (_today now)) + 1]> (usage self).
Proof. reflexivity. Qed.

Lemma record_pro_groups (self : UsageTracker) now g d :
  pro_groups (record self now g d).1 = pro_groups self.
Proof. reflexivity. Qed.

Lemma record_n_S n (self : UsageTracker) now g d :
  record_n (S n) self now g d =
  record (record_n n self now g d).1 now g (record_n n self now g d).2.
Proof. simpl. by destruct (record_n n self now g d). Qed.

Lemma record_n_pro_groups n (self : UsageTracker) now g d :
  pro_groups (record_n n self now g d).1 = pro_groups self.
Proof.
  induction n as [|n IH]; [done|]. by rewrite record_n_S, record_pro_groups.
Qed.

(** Each call adds exactly one to the counter of its own key. *)
Lemma record_n_count n (self : UsageTracker) now g d :
  default 0 (usage (record_n n self now g d).1 !! usage_key g (_today now)) =
  default 0 (usage self !! usage_key g (_today now)) + Z.of_nat n.
Proof.
  induction n as [|n IH]; [simpl; lia|].
  rewrite record_n_S, record_usage, lookup_insert_eq. simpl. rewrite IH. lia.
Qed.

Lemma record_n_lookup n (self : UsageTracker) now g d :
  (0 < n)%nat →
  usage (record_n n self now g d).1 !! usage_key g (_today now) =
  Some (default 0 (usage self !! usage_key g (_today now)) + Z.of_nat n).
Proof.
  destruct n as [|n]; [lia|]. intros _.
  rewrite record_n_S, record_usage, lookup_insert_eq, record_n_count.
  f_equal. lia.
Qed.

(** No other key is touched. *)
Lemma record_n_frame n (self : UsageTracker) now g d (k : string) :
  k ≠ usage_key g (_today now) →
  usage (record_n n self now g d).1 !! k = usage self !! k.
Proof.
  intros Hk. induction n as [|n IH]; [done|].
  by rewrite record_n_S, record_usage, lookup_insert_ne.
Qed.

Lemma can_use_free (L : Z) (self : UsageTracker) now g :
  str g ∉ pro_groups self →
  can_use L self now g =
  (bool_decide (Z.max 0 (L - default 0 (usage self !! usage_key g (_today now))) > 0),
   Z.max 0 (L - default 0 (usage self !! usage_key g (_today now)))).
Proof. intros Hpro. unfold can_use. by rewrite bool_decide_eq_false_2. Qed.

Lemma can_use_pro (L : Z) (self : UsageTracker) now g :
  str g ∈ pro_groups self → can_use L self now g = (true, 999).
Proof. intros Hpro. unfold can_use. by rewrite bool_decide_eq_true_2. Qed.

(** C2. A group in the pro set always gets (true, 999), whatever its
    counters hold on any day: the pro check comes before the counter.
    [add_pro] puts the group in the pro set, so after it [can_use] is
    (true, 999) also for a group whose quota was exhausted, and further
    records do not change that. *)
Theorem pro_group_unlimited (L : Z) (self : UsageTracker) (now : date) (g : Z)
    (d : disk) :
  (str g ∈ pro_groups self →
     can_use L self now g = (true, 999)
     ∧ ∀ n day d', can_use L (record_n n self day g d').1 now g = (true, 999))
  ∧ can_use L (add_pro self g d).1 now g = (true, 999)
  ∧ (∀ n day d',
       can_use L (record_n n (add_pro self g d).1 day g d').1 now g = (true, 999)).
Proof.
  assert (str g ∈ pro_groups (add_pro self g d).1) as Hadded by (simpl; set_solver).
  split; [|split].
  - intros Hpro. split; [by apply can_use_pro|].
    intros n day d'. apply can_use_pro. by rewrite record_n_pro_groups.
  - by apply can_use_pro.
  - intros n day d'. apply can_use_pro. by rewrite record_n_pro_groups.
Qed.

Lemma pro_group_unlimited_witness :
  let t0 := mkTracker "usage.json" "pro_groups.json" ∅ ∅ in
  let exhausted := (record_n 2 t0 (Date 2024 5 17) 42 ∅).1 in
  let upgraded := (add_pro exhausted 42 ∅).1 in
  can_use 2 exhausted (Date 2024 5 17) 42 = (false, 0)
  ∧ can_use 2 upgraded (Date 2024 5 17) 42 = (true, 999)
  ∧ can_use 2 (record_n 5 upgraded (Date 2024 5 17) 42 ∅).1 (Date 2024 5 17) 42
    = (true, 999).
Proof.
  intros t0 exhausted upgraded. split; [reflexivity|].
  assert (str 42 ∈ pro_groups upgraded) as Hpro by decide_closed.
  destruct (pro_group_unlimited 2 upgraded (Date 2024 5 17) 42 ∅) as (Hin & _ & _).
  destruct (Hin Hpro) as [Hnow Hlater].
  split; [exact Hnow|]. exact (Hlater 5%nat (Date 2024 5 17) ∅).
Defined.

(** C5. Starting from an empty counter for (group, day), [n] calls of
    [record] for that group on that UTC day leave exactly [n] under the
    key of (group, day); every other key, in particular the keys of other
    days, keeps its value; and on another day on which the group has no
    counter yet, [can_use] shows the full quota. *)
Theorem record_counts_per_day (self : UsageTracker) (now : date) (g : Z)
    (d : disk) (n : nat) :
  usage self !! usage_key g (_today now) = None →
  let self' := (record_n n self now g d).1 in
  default 0 (usage self' !! usage_key g (_today now)) = Z.of_nat n
  ∧ ((0 < n)%nat → usage self' !! usage_key g (_today now) = Some (Z.of_nat n))
  ∧ (∀ k, k ≠ usage_key g (_today now) → usage self' !! k = usage self !! k)
  ∧ (∀ day g', valid_date now → valid_date day → day ≠ now →
       usage self' !! usage_key g' (_today day) = usage self !! usage_key g' (_today day))
  ∧ (∀ L day, valid_date now → valid_date day → day ≠ now →
       str g ∉ pro_groups self →
       usage self !! usage_key g (_today day) = None →
       can_use L self' day g = (bool_decide (Z.max 0 L > 0), Z.max 0 L)).
Proof.
  intros Hempty self'. subst self'. repeat split.
  - rewrite record_n_count, Hempty. simpl. lia.
  - intros Hn. rewrite record_n_lookup, Hempty by done. simpl. f_equal; lia.
  - intros k Hk. by apply record_n_frame.
  - intros day g' Hnow Hday Hne. apply record_n_frame.
    by apply usage_key_other_day.
  - intros L day Hnow Hday Hne Hpro Hfresh.
    rewrite can_use_free by (by rewrite record_n_pro_groups).
    rewrite record_n_frame by (by apply usage_key_other_day).
    rewrite Hfresh. simpl. by rewrite Z.sub_0_r.
Qed.

Lemma record_counts_per_day_witness :
  let t0 := mkTracker "usage.json" "pro_groups.json" ∅ ∅ in
  let t3 := (record_n 3 t0 (Date 2024 12 31) 42 ∅).1 in
  usage t3 !! usage_key 42 (_today (Date 2024 12 31)) = Some 3
  ∧ can_use 50 t3 (Date 2025 1 1) 42 = (true, 50).
Proof.
  intros t0 t3.
  pose proof (record_counts_per_day t0 (Date 2024 12 31) 42 ∅ 3 eq_refl)
    as (_ & Hcount & _ & _ & Hnext).
  split.
  - apply Hcount. lia.
  - apply (Hnext 50 (Date 2025 1 1)).
    + unfold valid_date; simpl; lia.
    + unfold valid_date; simpl; lia.
    + discriminate.
    + decide_closed.
    + reflexivity.
Defined.

(** ** Statistics *)

Lemma py_sum_acc (a : Z) (l : list Z) : foldl Z.add a l = a + py_sum l.
Proof.
  unfold py_sum. revert a. induction l as [|x l IH]; intros a; simpl; [lia|].
  rewrite (IH (a + x)), (IH (0 + x)). lia.
Qed.

Lemma py_sum_cons (x : Z) (l : list Z) : py_sum (x :: l) = x + py_sum l.
Proof. unfold py_sum at 1. simpl. by rewrite py_sum_acc. Qed.

Lemma py_sum_perm (l l' : list Z) : l ≡ₚ l' → py_sum l = py_sum l'.
Proof.
  induction 1 as [|x l l' _ IH|x y l|l l' l'' _ IH1 _ IH2];
    rewrite ?py_sum_cons; [done|by rewrite IH|lia|congruence].
Qed.

Lemma py_sum_ones {A} (l : list A) : py_sum ((λ _, 1) <$> l) = Z.of_nat (length l).
Proof.
  induction l as [|x l IH]; [done|].
  rewrite fmap_cons, py_sum_cons, IH. simpl length. lia.
Qed.

(** The sum of the values of a table, one entry at a time. *)
Lemma total_insert_fresh (u : gmap string Z) (k : string) (v : Z) :
  u !! k = None →
  py_sum (map_to_list (<[k := v]> u)).*2 = v + py_sum (map_to_list u).*2.
Proof.
  intros Hk. rewrite <- py_sum_cons. apply py_sum_perm.
  by rewrite (map_to_list_insert u k v Hk).
Qed.

Lemma total_insert (u : gmap string Z) (k : string) (v : Z) :
  py_sum (map_to_list (<[k := v]> u)).*2 =
  v - default 0 (u !! k) + py_sum (map_to_list u).*2.
Proof.
  destruct (u !! k) as [old|] eqn:Hk; simpl.
  - rewrite <- (insert_delete_id u k old Hk) at 2.
    rewrite <- (insert_delete_eq u k v).
    rewrite !total_insert_fresh by apply lookup_delete_eq. lia.
  - rewrite total_insert_fresh by done. lia.
Qed.

(** The keys counted as active today, as a set. *)
Lemma active_keys_set (u : gmap string Z) (suffix : string) :
  ∃ S : gset string,
    (∀ k, k ∈ S ↔ k ∈ dom u ∧ ∃ p, k = p +:+ suffix)
    ∧ length (filter (λ k, endswith k suffix = true) (map_to_list u).*1) = size S.
Proof.
  exists (list_to_set (filter (λ k, endswith k suffix = true) (map_to_list u).*1)).
  split.
  - intros k. rewrite elem_of_list_to_set, list_elem_of_filter, endswith_spec.
    rewrite elem_of_dom. split; intros [H1 H2]; split; try done.
    + apply list_elem_of_fmap in H2 as [[k' v] [-> Hkv]].
      apply elem_of_map_to_list in Hkv. by exists v.
    + destruct H1 as [v Hv]. apply list_elem_of_fmap. exists (k, v).
      split; [done|]. by apply elem_of_map_to_list.
  - rewrite size_list_to_set; [done|].
    apply NoDup_filter, NoDup_fst_map_to_list.
Qed.

(** For a key written by [record], the date suffix test singles out the
    day. *)
Lemma key_suffix_is_day (g : Z) (day now : date) :
  valid_date day → valid_date now →
  (∃ p, usage_key g (_today day) = p +:+ ":" +:+ _today now) ↔ day = now.
Proof.
  intros Hday Hnow. split.
  - intros [p Hp]. unfold usage_key, _today in Hp.
    apply app_inj_tail in Hp as [_ Hp].
    + apply strftime_inj; [done..|]. exact (inj (String.app ":") _ _ Hp).
    + by rewrite !length_app_s, !strftime_length.
  - intros ->. by exists (str g).
Qed.

(** C8. [get_stats] returns: the number of distinct counter keys that
    end in ":" followed by today's date (for a key written by [record]
    that is: the key's day is today); the sum of all counter values of
    the table, over all days (zero for the empty table, one entry at a
    time otherwise, and one more after every [record]); and the size of
    the pro set. *)
Theorem get_stats_counts (self : UsageTracker) (now : date) :
  (∃ S : gset string,
     (∀ k, k ∈ S ↔ k ∈ dom (usage self) ∧ ∃ p, k = p +:+ ":" +:+ _today now)
     ∧ active_groups_today (get_stats self now) = Z.of_nat (size S))
  ∧ (∀ g day, valid_date day → valid_date now →
       (∃ p, usage_key g (_today day) = p +:+ ":" +:+ _today now) ↔ day = now)
  ∧ (usage self = ∅ → total_messages (get_stats self now) = 0)
  ∧ (∀ k v u, usage self = <[k := v]> u → u !! k = None →
       total_messages (get_stats self now) =
       v + total_messages (get_stats (mkTracker (file self) (pro_file self) u
                                        (pro_groups self)) now))
  ∧ (∀ g day d,
       total_messages (get_stats (record self day g d).1 now) =
       total_messages (get_stats self now) + 1)
  ∧ stats_pro_groups (get_stats self now) = Z.of_nat (size (pro_groups self)).
Proof.
  split; [|split; [|split; [|split; [|split]]]].
  - destruct (active_keys_set (usage self) (":" +:+ _today now)) as (S & HS & Hlen).
    exists S. split; [done|]. simpl. by rewrite py_sum_ones, Hlen.
  - intros g day. apply key_suffix_is_day.
  - intros Hempty. simpl. by rewrite Hempty, map_to_list_empty.
  - intros k v u Hu Hk. simpl. rewrite Hu. by apply total_insert_fresh.
  - intros g day d. simpl. rewrite total_insert. lia.
  - done.
Qed.

Lemma get_stats_counts_witness :
  let t0 := mkTracker "usage.json" "pro_groups.json" ∅ ∅ in
  let t2 := (record_n 2 t0 (Date 2024 5 16) 42 ∅).1 in
  let t3 := (record t2 (Date 2024 5 17) 43 ∅).1 in
  get_stats t3 (Date 2024 5 17) = mkStats 1 3 0
  ∧ total_messages (get_stats t3 (Date 2024 5 17))
    = total_messages (get_stats t2 (Date 2024 5 17)) + 1
  ∧ ¬ (∃ p, usage_key 42 (_today (Date 2024 5 16))
            = p +:+ ":" +:+ _today (Date 2024 5 17)).
Proof.
  intros t0 t2 t3.
  destruct (get_stats_counts t2 (Date 2024 5 17)) as (_ & Hday & _ & _ & Hrecord & _).
  split; [reflexivity|]. split; [exact (Hrecord 43 (Date 2024 5 17) ∅)|].
  intros Hsuffix. apply (Hday 42 (Date 2024 5 16)) in Hsuffix.
  - discriminate.
  - unfold valid_date; simpl; lia.
  - unfold valid_date; simpl; lia.
Defined.

(** ** Conversation memory *)

Lemma last_n_suffix {A} (n : nat) (l : list A) : last_n n l `suffix_of` l.
Proof. destruct n; [done|]. apply suffix_drop. Qed.

Lemma last_n_length {A} (n : nat) (l : list A) :
  (0 < n)%nat → (length (last_n n l) ≤ n)%nat.
Proof. destruct n; [lia|]. intros _. simpl. rewrite length_drop. lia. Qed.

(** The last [n] entries keep every tail of at most [n] entries. *)
Lemma last_n_keeps {A} (n : nat) (k l : list A) :
  (length k ≤ n)%nat → k `suffix_of` l → k `suffix_of` last_n n l.
Proof.
  intros Hlen [p ->]. destruct n as [|n]; [by exists p|].
  unfold last_n. rewrite drop_app_le by (rewrite length_app; lia).
  by eexists.
Qed.

Lemma suffix_last {A} (k l : list A) (x : A) :
  k ++ [x] `suffix_of` l → last l = Some x.
Proof. intros [p ->]. by rewrite app_assoc, last_snoc. Qed.

Lemma remember_user_suffix (self : AIChat) chat user msg :
  remember_user self chat user msg
    `suffix_of` turns_of self chat ++ [UserTurn user msg].
Proof.
  unfold remember_user, turns_of. case_match; [apply last_n_suffix|done].
Qed.

Lemma remember_user_length (self : AIChat) chat user msg :
  (0 < max_memory self)%nat →
  (length (remember_user self chat user msg) ≤ max_memory self)%nat.
Proof.
  intros Hcap. unfold remember_user.
  destruct (max_memory self <? _)%nat eqn:Hlt.
  - by apply last_n_length.
  - by apply Nat.ltb_ge in Hlt.
Qed.

(** The user turn just appended is the last stored turn. *)
Lemma remember_user_keeps (self : AIChat) chat user msg (k : list turn) :
  (length k + 1 ≤ max_memory self)%nat ∨ max_memory self = O →
  k `suffix_of` turns_of self chat →
  k ++ [UserTurn user msg] `suffix_of` remember_user self chat user msg.
Proof.
  intros Hcap [p Hp]. unfold remember_user. fold (turns_of self chat).
  assert (k ++ [UserTurn user msg] `suffix_of` turns_of self chat ++ [UserTurn user msg])
    as Hsuf by (exists p; by rewrite Hp, app_assoc).
  case_match; [|done].
  destruct Hcap as [Hcap| ->]; [|done].
  apply last_n_keeps; [|done]. rewrite length_app. simpl. lia.
Qed.

Lemma remember_user_last (self : AIChat) chat user msg :
  last (remember_user self chat user msg) = Some (UserTurn user msg).
Proof.
  apply (suffix_last []). unfold remember_user. fold (turns_of self chat).
  case_match; [|by eexists].
  destruct (max_memory self) as [|n] eqn:Hn; [by eexists|].
  apply last_n_keeps; [simpl; lia|by eexists].
Qed.

Lemma turns_of_set_memory (self : AIChat) chat turns :
  turns_of (set_memory self chat turns) chat = turns.
Proof. unfold turns_of, set_memory. simpl. by rewrite lookup_insert_eq. Qed.

Lemma turns_of_set_memory_ne (self : AIChat) chat chat' turns :
  chat ≠ chat' → turns_of (set_memory self chat turns) chat' = turns_of self chat'.
Proof. intros Hne. unfold turns_of, set_memory. simpl. by rewrite lookup_insert_ne. Qed.

(** [respond], by the outcome of the provider dispatch. *)
Lemma respond_unfold (urlopen : network) (self : AIChat) chat user msg group :
  let turns := remember_user self chat user msg in
  let self1 := set_memory self chat turns in
  let call := call_provider urlopen self1 (system_prompt group)
                (build_message <$> last_n 10 turns) in
  respond urlopen self chat user msg group =
  match call.2 with
  | Return resp =>
      (set_memory self1 chat (turns ++ [AssistantTurn resp]), call.1, Return resp)
  | Raise (Exception e) =>
      (self1, call.1 ++ [LogError ("AI error: " +:+ e)], Return (JStr fallback_text))
  | Raise (BaseException e) => (self1, call.1, Raise (BaseException e))
  end.
Proof. intros turns self1 call. unfold respond. fold turns self1 call. by destruct call. Qed.

Lemma respond_max_memory (urlopen : network) (self : AIChat) chat user msg group :
  max_memory (respond urlopen self chat user msg group).1.1 = max_memory self.
Proof. rewrite respond_unfold. simpl. by repeat case_match. Qed.

(** What a call leaves in the memory of its own group: the stored turns
    with the user turn, and the reply after it when one was produced. *)
Lemma respond_turns (urlopen : network) (self : AIChat) chat user msg group :
  let turns := remember_user self chat user msg in
  turns_of (respond urlopen self chat user msg group).1.1 chat = turns
  ∨ ∃ resp, turns_of (respond urlopen self chat user msg group).1.1 chat
            = turns ++ [AssistantTurn resp].
Proof.
  intros turns. rewrite respond_unfold. simpl. fold turns.
  repeat case_match; simpl; rewrite ?turns_of_set_memory; eauto.
Qed.

Lemma respond_turns_other (urlopen : network) (self : AIChat) chat chat' user msg group :
  chat ≠ chat' →
  turns_of (respond urlopen self chat user msg group).1.1 chat' = turns_of self chat'.
Proof.
  intros Hne. rewrite respond_unfold. simpl.
  repeat case_match; simpl; by rewrite ?turns_of_set_memory_ne.
Qed.

(** Between calls a group holds at most one turn more than [max_memory]. *)
Lemma respond_memory_bound (urlopen : network) (self : AIChat) chat user msg group :
  (0 < max_memory self)%nat →
  (length (turns_of (respond urlopen self chat user msg group).1.1 chat)
     ≤ max_memory self + 1)%nat.
Proof.
  intros Hcap. pose proof (remember_user_length self chat user msg Hcap).
  destruct (respond_turns urlopen self chat user msg group) as [->|[resp ->]];
    rewrite ?length_app; simpl; lia.
Qed.

(** Oldest first: what survives a call is a tail of the old turns
    followed by the new ones. *)
Lemma respond_memory_fifo (urlopen : network) (self : AIChat) chat user msg group :
  ∃ new, turns_of (respond urlopen self chat user msg group).1.1 chat
           `suffix_of` turns_of self chat ++ UserTurn user msg :: new.
Proof.
  pose proof (remember_user_suffix self chat user msg) as [p Hp].
  destruct (respond_turns urlopen self chat user msg group) as [->|[resp ->]].
  - exists []. by exists p.
  - exists [AssistantTurn resp]. exists p.
    change (UserTurn user msg :: [AssistantTurn resp])
      with ([UserTurn user msg] ++ [AssistantTurn resp]).
    by rewrite (app_assoc (turns_of self chat)), Hp, !app_assoc.
Qed.

Lemma respond_all_snoc (calls : list call) (c : call) (self : AIChat) :
  respond_all (calls ++ [c]) self = (respond_call (respond_all calls self) c).1.1.
Proof. unfold respond_all. by rewrite foldl_app. Qed.

Lemma respond_all_max_memory (calls : list call) (self : AIChat) :
  max_memory (respond_all calls self) = max_memory self.
Proof.
  induction calls as [|c calls IH] using rev_ind; [done|].
  rewrite respond_all_snoc. unfold respond_call. by rewrite respond_max_memory.
Qed.

(** The bound holds after any sequence of calls on a fresh object. *)
Lemma respond_all_memory_bound (calls : list call) (provider api_key model : string)
    (chat : Z) :
  (length (turns_of (respond_all calls (AIChat_init provider api_key model)) chat)
     ≤ 21)%nat.
Proof.
  induction calls as [|c calls IH] using rev_ind.
  { unfold turns_of. simpl. rewrite lookup_empty. simpl. lia. }
  rewrite respond_all_snoc. unfold respond_call.
  destruct (decide (call_chat c = chat)) as [<-|Hne].
  - etrans; [apply respond_memory_bound|]; rewrite respond_all_max_memory; simpl; lia.
  - by rewrite respond_turns_other.
Qed.

(** C3. On a fresh object with the cap of 20, eleven answered calls for
    one group leave 21 turns in its memory: the reply is appended after
    the cut, so between calls the list holds one turn more than the cap
    (and never more than that: [respond_all_memory_bound]).  The turns
    that survive are the most recent ones, oldest first
    ([respond_memory_fifo]). *)
Theorem memory_holds_21_turns :
  let ai0 := AIChat_init "anthropic" "key" "model" in
  let c := mkCall (anthropic_says "ok") 7 "Ann" "hello" "Group" in
  max_memory ai0 = 20%nat
  ∧ length (turns_of (respond_all (replicate 10 c) ai0) 7) = 20%nat
  ∧ length (turns_of (respond_all (replicate 11 c) ai0) 7) = 21%nat
  ∧ last (turns_of (respond_all (replicate 11 c) ai0) 7) = Some (AssistantTurn (JStr "ok")).
Proof. vm_compute. done. Qed.

(** ** The provider call and its failures *)

Lemma call_provider_unknown (urlopen : network) (self : AIChat) system messages :
  provider self ≠ "anthropic" → provider self ≠ "openai" →
  call_provider urlopen self system messages = ([], Return (JStr unknown_provider_text)).
Proof.
  intros H1 H2. unfold call_provider.
  by rewrite (proj2 (String.eqb_neq _ _) H1), (proj2 (String.eqb_neq _ _) H2).
Qed.

(** The kinds of failure the [try] block meets: the request fails
    (network error, timeout, error status), the body is not JSON, or the
    document lacks the expected fields. *)
Lemma call_provider_failures (urlopen : network) (self : AIChat) system messages :
  provider self = "anthropic" ∨ provider self = "openai" →
  (∀ e, (∀ req, urlopen req = Raise e) →
        (call_provider urlopen self system messages).2 = Raise e)
  ∧ ((∀ req, urlopen req = Return NotJson) →
        (call_provider urlopen self system messages).2
        = Raise (Exception "JSONDecodeError"))
  ∧ ((∀ req, urlopen req = Return (Json (JObj []))) →
        (call_provider urlopen self system messages).2 = Raise (Exception "KeyError")).
Proof.
  intros Hp. unfold call_provider, _call_anthropic, _call_openai.
  destruct Hp as [-> | ->]; simpl; repeat split; intros; simpl;
    by repeat match goal with H : ∀ req, urlopen req = _ |- _ => rewrite H end.
Qed.

(** C4. When the provider call raises an exception of class [Exception]
    (network error, timeout, malformed response, error status), [respond]
    returns the fallback string instead of raising, logs the error, and
    leaves in memory exactly the turns stored when the user turn was
    appended: the user turn is last and no assistant turn follows it. *)
Theorem respond_falls_back (urlopen : network) (self : AIChat) (chat : Z)
    (user msg group e : string) :
  let turns := remember_user self chat user msg in
  let call := call_provider urlopen (set_memory self chat turns) (system_prompt group)
                (build_message <$> last_n 10 turns) in
  call.2 = Raise (Exception e) →
  (respond urlopen self chat user msg group).2 = Return (JStr fallback_text)
  ∧ (respond urlopen self chat user msg group).1.2
      = call.1 ++ [LogError ("AI error: " +:+ e)]
  ∧ turns_of (respond urlopen self chat user msg group).1.1 chat = turns
  ∧ last turns = Some (UserTurn user msg)
  ∧ turns `suffix_of` turns_of self chat ++ [UserTurn user msg].
Proof.
  intros turns call Hraise. rewrite respond_unfold. fold turns call.
  rewrite Hraise. simpl. rewrite turns_of_set_memory.
  repeat split; [apply remember_user_last|apply remember_user_suffix].
Qed.

Lemma respond_falls_back_witness :
  let ai0 := AIChat_init "anthropic" "key" "model" in
  (respond connection_refused ai0 7 "Ann" "hello" "Group").2
    = Return (JStr fallback_text)
  ∧ turns_of (respond connection_refused ai0 7 "Ann" "hello" "Group").1.1 7
    = [UserTurn "Ann" "hello"].
Proof.
  intros ai0.
  destruct (respond_falls_back connection_refused ai0 7 "Ann" "hello" "Group"
              "<urlopen error [Errno 111] Connection refused>" eq_refl)
    as (Hret & _ & Hmem & _).
  split; [exact Hret|]. rewrite Hmem. reflexivity.
Defined.

(** The requests among the events of a run. *)
Lemma respond_events (urlopen : network) (self : AIChat) chat user msg group :
  let turns := remember_user self chat user msg in
  let call := call_provider urlopen (set_memory self chat turns) (system_prompt group)
                (build_message <$> last_n 10 turns) in
  ∃ logged, (respond urlopen self chat user msg group).1.2 = call.1 ++ logged
            ∧ ∀ req, HttpRequest req ∉ logged.
Proof.
  intros turns call. rewrite respond_unfold. fold turns call.
  destruct call.2 as [resp|[e|e]]; simpl.
  - exists []. rewrite app_nil_r. split; [done|]. intros req. apply not_elem_of_nil.
  - eexists. split; [done|]. intros req Hin.
    apply list_elem_of_singleton in Hin. discriminate.
  - exists []. rewrite app_nil_r. split; [done|]. intros req. apply not_elem_of_nil.
Qed.

(** C6. The message list [respond] sends is built from the last 10
    stored turns of the group (fewer when fewer are stored), in stored
    order with the turn just received last; a user turn becomes
    "[name]: text", an assistant turn keeps its content.  The request to
    the first provider carries exactly that list, the request to the
    second one the same list after the system message; no other request
    is made. *)
Theorem provider_messages_window (urlopen : network) (self : AIChat) (chat : Z)
    (user msg group : string) :
  let turns := remember_user self chat user msg in
  let recent := last_n 10 turns in
  let sent := build_message <$> recent in
  (length sent ≤ 10)%nat
  ∧ recent `suffix_of` turns
  ∧ last recent = Some (UserTurn user msg)
  ∧ (∀ name content, build_message (UserTurn name content)
       = mkMsg "user" (JStr ("[" +:+ name +:+ "]: " +:+ content)))
  ∧ (∀ content, build_message (AssistantTurn content) = mkMsg "assistant" content)
  ∧ (provider self = "anthropic" →
       ∃ logged,
         (respond urlopen self chat user msg group).1.2
         = HttpRequest (mkRequest "https://api.anthropic.com/v1/messages"
             [("x-api-key", api_key self); ("anthropic-version", "2023-06-01");
              ("content-type", "application/json")]
             (JObj [("model", JStr (model self)); ("max_tokens", JInt 1000);
                    ("system", JStr (system_prompt group));
                    ("messages", dumps_messages sent)]) 30) :: logged
         ∧ ∀ req, HttpRequest req ∉ logged)
  ∧ (provider self = "openai" →
       ∃ logged,
         (respond urlopen self chat user msg group).1.2
         = HttpRequest (mkRequest "https://api.openai.com/v1/chat/completions"
             [("Authorization", "Bearer " +:+ api_key self);
              ("Content-Type", "application/json")]
             (JObj [("model", JStr (model self)); ("max_tokens", JInt 1000);
                    ("messages", dumps_messages
                       (mkMsg "system" (JStr (system_prompt group)) :: sent))]) 30)
           :: logged
         ∧ ∀ req, HttpRequest req ∉ logged).
Proof.
  intros turns recent sent.
  split; [|split; [|split; [|split; [|split; [|split]]]]].
  - unfold sent. rewrite length_fmap. apply last_n_length. lia.
  - apply last_n_suffix.
  - apply (suffix_last []). apply last_n_keeps; [simpl; lia|].
    pose proof (remember_user_last self chat user msg) as Hl. fold turns in Hl.
    apply last_Some in Hl as [p Hp]. by exists p.
  - done.
  - done.
  - intros Hp.
    destruct (respond_events urlopen self chat user msg group) as (logged & Hev & Hno).
    exists logged. split; [|done]. rewrite Hev. unfold call_provider.
    simpl. by rewrite Hp.
  - intros Hp.
    destruct (respond_events urlopen self chat user msg group) as (logged & Hev & Hno).
    exists logged. split; [|done]. rewrite Hev. unfold call_provider.
    simpl. by rewrite Hp.
Qed.

Lemma provider_messages_window_witness :
  let ai0 := AIChat_init "anthropic" "key" "model" in
  let c := mkCall (anthropic_says "ok") 7 "Ann" "hello" "Group" in
  let ai6 := respond_all (replicate 6 c) ai0 in
  ∃ logged,
    (respond (anthropic_says "ok") ai6 7 "Bob" "bye" "Group").1.2
    = HttpRequest (mkRequest "https://api.anthropic.com/v1/messages"
         [("x-api-key", "key"); ("anthropic-version", "2023-06-01");
          ("content-type", "application/json")]
         (JObj [("model", JStr "model"); ("max_tokens", JInt 1000);
                ("system", JStr (system_prompt "Group"));
                ("messages", dumps_messages
                   [mkMsg "assistant" (JStr "ok");
                    mkMsg "user" (JStr "[Ann]: hello"); mkMsg "assistant" (JStr "ok");
                    mkMsg "user" (JStr "[Ann]: hello"); mkMsg "assistant" (JStr "ok");
                    mkMsg "user" (JStr "[Ann]: hello"); mkMsg "assistant" (JStr "ok");
                    mkMsg "user" (JStr "[Ann]: hello"); mkMsg "assistant" (JStr "ok");
                    mkMsg "user" (JStr "[Bob]: bye")])]) 30) :: logged.
Proof.
  intros ai0 c ai6.
  destruct (provider_messages_window (anthropic_says "ok") ai6 7 "Bob" "bye" "Group")
    as (_ & _ & _ & _ & _ & Hsent & _).
  destruct (Hsent eq_refl) as (logged & Hev & _).
  exists logged. rewrite Hev. reflexivity.
Defined.

(** C10. With a provider value other than the two supported ones,
    [respond] makes no request and logs nothing, returns the
    unknown-provider string, and stores it as an assistant turn right
    after the user turn; the next call for the group then builds a
    message list that contains it. *)
Theorem unknown_provider_is_remembered (urlopen : network) (self : AIChat)
    (chat : Z) (user msg group : string) :
  provider self ≠ "anthropic" → provider self ≠ "openai" →
  let turns := remember_user self chat user msg in
  let self' := (respond urlopen self chat user msg group).1.1 in
  (respond urlopen self chat user msg group).2 = Return (JStr unknown_provider_text)
  ∧ (respond urlopen self chat user msg group).1.2 = []
  ∧ turns_of self' chat = turns ++ [AssistantTurn (JStr unknown_provider_text)]
  ∧ last turns = Some (UserTurn user msg)
  ∧ (∀ user' msg', (2 ≤ max_memory self)%nat →
       mkMsg "assistant" (JStr unknown_provider_text)
       ∈ build_message <$> last_n 10 (remember_user self' chat user' msg')).
Proof.
  intros H1 H2 turns self'.
  assert (respond urlopen self chat user msg group =
          (set_memory (set_memory self chat turns) chat
             (turns ++ [AssistantTurn (JStr unknown_provider_text)]),
           [], Return (JStr unknown_provider_text))) as Hrun.
  { rewrite respond_unfold. fold turns. by rewrite call_provider_unknown. }
  assert (turns_of self' chat = turns ++ [AssistantTurn (JStr unknown_provider_text)])
    as Hmem by (unfold self'; rewrite Hrun; apply turns_of_set_memory).
  split; [by rewrite Hrun|]. split; [by rewrite Hrun|]. split; [done|].
  split; [apply remember_user_last|].
  intros user' msg' Hcap.
  assert ([AssistantTurn (JStr unknown_provider_text)] ++ [UserTurn user' msg']
            `suffix_of` last_n 10 (remember_user self' chat user' msg')) as [p Hp].
  { apply last_n_keeps; [simpl; lia|]. apply remember_user_keeps.
    - left. unfold self'. rewrite respond_max_memory. simpl. lia.
    - rewrite Hmem. by eexists. }
  rewrite Hp, !fmap_app. simpl. set_solver.
Qed.

Lemma unknown_provider_is_remembered_witness :
  let ai0 := AIChat_init "gemini" "key" "model" in
  let ai1 := (respond connection_refused ai0 7 "Ann" "hello" "Group").1.1 in
  respond connection_refused ai0 7 "Ann" "hello" "Group"
    = (ai1, [], Return (JStr unknown_provider_text))
  ∧ turns_of ai1 7 = [UserTurn "Ann" "hello"; AssistantTurn (JStr unknown_provider_text)]
  ∧ mkMsg "assistant" (JStr unknown_provider_text)
    ∈ build_message <$> last_n 10 (remember_user ai1 7 "Bob" "again").
Proof.
  intros ai0 ai1.
  assert (provider ai0 ≠ "anthropic") as H1 by discriminate.
  assert (provider ai0 ≠ "openai") as H2 by discriminate.
  destruct (unknown_provider_is_remembered connection_refused ai0 7 "Ann" "hello"
              "Group" H1 H2) as (_ & _ & Hmem & _ & Hnext).
  split; [reflexivity|]. split; [exact Hmem|].
  apply Hnext. simpl. lia.
Defined.

(** ** The quota gate of the handlers *)

(** The step shared by the three paths: run the [can_use] check, whose
    outcome is known. *)
Ltac run_gate H :=
  unfold mbind, M_bind, can_useM;
  match goal with
  | |- context [can_use ?L ?t ?now ?chat] =>
      destruct (can_use L t now chat) as [? ?]; simpl in H; subst; simpl
  end.

Section QuotaGate.
Context (L : Z) (env : Env) (message : Message) (w : World).

Hypothesis Hrefused :
  (can_use L (tracker w) (clock_can_use env) (chat_id message)).1 = false.

Lemma cmd_ask_refuses :
  strip (replace "/ask" "" (Some 1%nat) (text message)) ≠ "" →
  let notice := Answer (chat_id message) (JStr (ask_limit_notice L)) in
  cmd_ask L env message w = (refused w notice, deliver env notice).
Proof.
  intros Hq notice. unfold cmd_ask.
  rewrite (proj2 (String.eqb_neq _ _) Hq).
  run_gate Hrefused. reflexivity.
Qed.

Lemma handle_private_refuses :
  text message ≠ "" → chat_type message = "private" →
  startswith (text message) "/" = false →
  let notice := Answer (chat_id message) (JStr private_limit_notice) in
  handle_message L env message w = (refused w notice, deliver env notice).
Proof.
  intros Htext Hpriv Hcmd notice. unfold handle_message.
  rewrite (proj2 (String.eqb_neq _ _) Htext), Hpriv, Hcmd. simpl.
  run_gate Hrefused. reflexivity.
Qed.

Lemma handle_group_refuses (bot_info : BotInfo) :
  text message ≠ "" → chat_type message ≠ "private" →
  bot_me env = Return bot_info →
  is_mentioned (username bot_info) (text message) || is_reply bot_info message = true →
  let notice := Reply (chat_id message) (JStr (group_limit_notice L)) in
  handle_message L env message w = (refused w notice, deliver env notice).
Proof.
  intros Htext Hgroup Hme Haddr notice. unfold handle_message.
  rewrite (proj2 (String.eqb_neq _ _) Htext), (proj2 (String.eqb_neq _ _) Hgroup).
  unfold mbind at 1, M_bind at 1, meM. rewrite Hme.
  apply orb_true_iff in Haddr.
  assert (negb (is_mentioned (username bot_info) (text message))
          && negb (is_reply bot_info message) = false) as ->
    by (destruct Haddr as [-> | ->]; simpl; by rewrite ?andb_false_r).
  run_gate Hrefused. reflexivity.
Qed.
End QuotaGate.

(** C9. When [can_use] refuses the group, each of the three paths that
    lead to a reply ([/ask] with a question, a private text that is not a
    command, a group text that mentions the bot or replies to it) sends
    its fixed notice and stops: the tracker (so the counters), the files,
    the AI object (so the conversation memory) are as before, and the
    only new event is the notice, so no request went to a provider. *)
Theorem exhausted_quota_stops (L : Z) (env : Env) (message : Message) (w : World) :
  (can_use L (tracker w) (clock_can_use env) (chat_id message)).1 = false →
  (strip (replace "/ask" "" (Some 1%nat) (text message)) ≠ "" →
     ∃ notice, cmd_ask L env message w = (refused w notice, deliver env notice)
       ∧ notice = Answer (chat_id message) (JStr (ask_limit_notice L)))
  ∧ (text message ≠ "" → chat_type message = "private" →
     startswith (text message) "/" = false →
     ∃ notice, handle_message L env message w = (refused w notice, deliver env notice)
       ∧ notice = Answer (chat_id message) (JStr private_limit_notice))
  ∧ (∀ bot_info, text message ≠ "" → chat_type message ≠ "private" →
     bot_me env = Return bot_info →
     is_mentioned (username bot_info) (text message) || is_reply bot_info message = true →
     ∃ notice, handle_message L env message w = (refused w notice, deliver env notice)
       ∧ notice = Reply (chat_id message) (JStr (group_limit_notice L)))
  ∧ (∀ notice, tracker (refused w notice) = tracker w
       ∧ ai (refused w notice) = ai w
       ∧ files (refused w notice) = files w
       ∧ trace (refused w notice) = trace w ++ [notice]).
Proof.
  intros Hno. repeat split.
  - intros Hq. eexists. split; [by apply cmd_ask_refuses|done].
  - intros Htext Hpriv Hcmd. eexists. split; [by apply handle_private_refuses|done].
  - intros bot_info Htext Hgroup Hme Haddr. eexists.
    split; [by apply (handle_group_refuses _ _ _ _ Hno bot_info)|done].
Qed.

Lemma exhausted_quota_stops_witness :
  let t0 := mkTracker "data/usage.json" "data/pro_groups.json" ∅ ∅ in
  let t2 := (record_n 2 t0 (Date 2024 5 17) (-1001) ∅).1 in
  let w := mkWorld t2 (AIChat_init "anthropic" "key" "model") ∅ [] in
  let env := mkEnv (Date 2024 5 17) (Date 2024 5 17)
               (Return (mkBotInfo (Some "gendolf_bot") 99))
               (anthropic_says "ok") (λ _, Return ()) in
  let message := mkMessage "@gendolf_bot hello" (-1001) "supergroup"
                   (Some "Devs") "Ann" None in
  handle_message 2 env message w
  = (mkWorld t2 (AIChat_init "anthropic" "key" "model") ∅
       [Reply (-1001) (JStr (group_limit_notice 2))], Return ()).
Proof.
  intros t0 t2 w env message.
  destruct (exhausted_quota_stops 2 env message w eq_refl) as (_ & _ & Hgroup & _).
  assert (text message ≠ "") as Htext by discriminate.
  assert (chat_type message ≠ "private") as Hgr by discriminate.
  destruct (Hgroup (mkBotInfo (Some "gendolf_bot") 99) Htext Hgr eq_refl eq_refl)
    as (notice & Hrun & ->).
  exact Hrun.
Defined.

(** ** Loading the usage store *)

Lemma load_missing (file pro_file : string) (d : disk) :
  d !! file = None → d !! pro_file = None →
  _load file pro_file d = Return (mkLoaded (JObj []) []).
Proof. intros H1 H2. unfold _load. by rewrite H1, H2. Qed.

Lemma load_raises_usage (file pro_file : string) (d : disk) (c : stored) (e : raised) :
  d !! file = Some c → json_loads c = Raise e → _load file pro_file d = Raise e.
Proof. intros H1 H2. unfold _load. by rewrite H1, H2. Qed.

Lemma load_raises_pro (file pro_file : string) (d : disk) (c : stored) (e : raised) :
  d !! pro_file = Some c → json_loads c = Raise e →
  ∃ e', _load file pro_file d = Raise e'.
Proof.
  intros H1 H2. unfold _load. rewrite H1, H2.
  destruct (d !! file) as [c'|]; simpl; [|by eexists].
  destruct (json_loads c'); simpl; by eexists.
Qed.

(** C7, as the code has it.  A missing backing file is no error and
    leaves the attribute empty: with both files missing the tracker
    starts with an empty table and an empty pro set.  A file that exists
    but cannot be read or decoded makes the load raise: the error of the
    read propagates. *)
Theorem load_missing_is_empty_unreadable_raises (data_dir : string) (d : disk) :
  let file := path_join data_dir "usage.json" in
  let pro_file := path_join data_dir "pro_groups.json" in
  (d !! file = None → d !! pro_file = None →
     _load file pro_file d = Return (mkLoaded (JObj []) [])
     ∧ UsageTracker_init data_dir d = Return (Some (mkTracker file pro_file ∅ ∅)))
  ∧ (d !! file = None → ∀ l, _load file pro_file d = Return l → loaded_usage l = JObj [])
  ∧ (d !! pro_file = None →
     ∀ l, _load file pro_file d = Return l → loaded_pro_groups l = [])
  ∧ (∀ c e, d !! file = Some c → json_loads c = Raise e →
       _load file pro_file d = Raise e ∧ UsageTracker_init data_dir d = Raise e)
  ∧ (∀ c e, d !! pro_file = Some c → json_loads c = Raise e →
       ∃ e', _load file pro_file d = Raise e' ∧ UsageTracker_init data_dir d = Raise e').
Proof.
  intros file pro_file. repeat split.
  - by apply load_missing.
  - unfold UsageTracker_init. fold file pro_file. by rewrite load_missing.
  - intros H l. unfold _load. rewrite H. simpl.
    destruct (d !! pro_file) as [c|]; simpl; [|by intros [= <-]].
    destruct (json_loads c) as [doc|e]; simpl; [|done].
    destruct (py_set doc); simpl; [by intros [= <-]|done].
  - intros H l. unfold _load. rewrite H.
    destruct (d !! file) as [c|]; simpl; [|by intros [= <-]].
    destruct (json_loads c) as [doc|e]; simpl; [by intros [= <-]|done].
  - by eapply load_raises_usage.
  - unfold UsageTracker_init. fold file pro_file. by erewrite load_raises_usage.
  - intros c e Hc He.
    destruct (load_raises_pro file pro_file d c e Hc He) as [e' He'].
    exists e'. split; [done|].
    unfold UsageTracker_init. fold file pro_file. by rewrite He'.
Qed.

Lemma load_missing_is_empty_unreadable_raises_witness :
  UsageTracker_init "/tmp/gendolf-bot" ∅
  = Return (Some (mkTracker "/tmp/gendolf-bot/usage.json"
                    "/tmp/gendolf-bot/pro_groups.json" ∅ ∅)).
Proof.
  destruct (load_missing_is_empty_unreadable_raises "/tmp/gendolf-bot" ∅)
    as (Hmissing & _).
  exact (proj2 (Hmissing eq_refl eq_refl)).
Defined.

(** C7 as stated fails: a usage file that is not JSON (an empty file, for
    one) makes the load raise, and so does a pro file that holds a JSON
    number; in neither case does the tracker start empty. *)
Lemma load_raises_on_malformed_file :
  UsageTracker_init "/tmp/gendolf-bot" {[ "/tmp/gendolf-bot/usage.json" := NotJson ]}
    = Raise (Exception "JSONDecodeError")
  ∧ UsageTracker_init "/tmp/gendolf-bot"
      {[ "/tmp/gendolf-bot/pro_groups.json" := Json (JInt 5) ]}
    = Raise (Exception "TypeError")
  ∧ ¬ (∀ d : disk, ∃ t, UsageTracker_init "/tmp/gendolf-bot" d = Return t).
Proof.
  split; [reflexivity|]. split; [reflexivity|].
  intros Hall.
  destruct (Hall {[ "/tmp/gendolf-bot/usage.json" := NotJson ]}) as [t Ht].
  vm_compute in Ht. discriminate.
Qed.

(** ** The quota, end to end *)

Lemma handle_private_accepts (L : Z) (env : Env) (message : Message) (w : World) :
  (can_use L (tracker w) (clock_can_use env) (chat_id message)).1 = true →
  text message ≠ "" → chat_type message = "private" →
  startswith (text message) "/" = false →
  tracker (handle_message L env message w).1
  = (record (tracker w) (clock_record env) (chat_id message) (files w)).1.
Proof.
  intros Hyes Htext Hpriv Hcmd. unfold handle_message.
  rewrite (proj2 (String.eqb_neq _ _) Htext), Hpriv, Hcmd. simpl.
  run_gate Hyes. unfold recordM, respondM, send. simpl.
  destruct (respond _ _ _ _ _ _) as [[a evs] [resp|e]]; reflexivity.
Qed.

Lemma attempts_snoc (L : Z) (envs : list Env) (env : Env) (message : Message) (w : World) :
  attempts L (envs ++ [env]) message w
  = (handle_message L env message (attempts L envs message w)).1.
Proof. unfold attempts. by rewrite foldl_app. Qed.

(** While the quota lasts, every attempt is accepted and counted. *)
Lemma attempts_counted (L : Z) (now : date) (envs : list Env) (message : Message)
    (w : World) :
  str (chat_id message) ∉ pro_groups (tracker w) →
  usage (tracker w) !! usage_key (chat_id message) (_today now) = None →
  text message ≠ "" → chat_type message = "private" →
  startswith (text message) "/" = false →
  Forall (λ env, clock_can_use env = now ∧ clock_record env = now) envs →
  (Z.of_nat (length envs) ≤ L)%Z →
  pro_groups (tracker (attempts L envs message w)) = pro_groups (tracker w)
  ∧ default 0 (usage (tracker (attempts L envs message w))
                 !! usage_key (chat_id message) (_today now))
    = Z.of_nat (length envs).
Proof.
  intros Hpro Hempty Htext Hpriv Hcmd.
  induction envs as [|env envs IH] using rev_ind; intros Hclock Hlen.
  { simpl. by rewrite Hempty. }
  apply Forall_app in Hclock as [Hclock Henv].
  apply Forall_singleton in Henv as [Hc Hr].
  rewrite length_app in Hlen. simpl in Hlen.
  destruct (IH Hclock) as [IHpro IHcount]; [lia|].
  rewrite attempts_snoc, handle_private_accepts; try done.
  - rewrite Hr, record_pro_groups, record_usage, lookup_insert_eq, IHcount.
    split; [done|]. rewrite length_app. simpl. lia.
  - rewrite Hc, can_use_free by (by rewrite IHpro). simpl.
    rewrite IHcount. apply bool_decide_eq_true_2. lia.
Qed.

(** C1. For a group outside the pro set [can_use] returns
    remaining = max(0, FREE_LIMIT - count for today) and
    allowed = (remaining > 0), so with a count of exactly FREE_LIMIT it
    returns (false, 0).  Starting from an empty counter for the day, [n]
    recorded messages on that UTC day make the count [n], and exactly
    FREE_LIMIT of them give (false, 0).  Through the handler: the first
    FREE_LIMIT attempts of the day are accepted and counted, and the
    attempt after them is refused. *)
Theorem can_use_after_limit (L : Z) (self : UsageTracker) (now : date) (g : Z)
    (d : disk) (n : nat) :
  str g ∉ pro_groups self →
  let key := usage_key g (_today now) in
  let self' := (record_n n self now g d).1 in
  (can_use L self now g
     = (bool_decide (Z.max 0 (L - default 0 (usage self !! key)) > 0),
        Z.max 0 (L - default 0 (usage self !! key)))
   ∧ (default 0 (usage self !! key) = L → can_use L self now g = (false, 0)))
  ∧ (usage self !! key = None →
       can_use L self' now g
         = (bool_decide (Z.max 0 (L - Z.of_nat n) > 0), Z.max 0 (L - Z.of_nat n))
       ∧ (Z.of_nat n = L → can_use L self' now g = (false, 0)))
  ∧ (∀ envs env message w,
       usage self !! key = None →
       tracker w = self → chat_id message = g →
       text message ≠ "" → chat_type message = "private" →
       startswith (text message) "/" = false →
       Forall (λ env, clock_can_use env = now ∧ clock_record env = now) envs →
       clock_can_use env = now →
       Z.of_nat (length envs) = L →
       let w' := attempts L envs message w in
       let notice := Answer g (JStr private_limit_notice) in
       default 0 (usage (tracker w') !! key) = L
       ∧ handle_message L env message w' = (refused w' notice, deliver env notice)).
Proof.
  intros Hpro key self'. subst key self'. split; [|split].
  - split; [by apply can_use_free|].
    intros Hused. rewrite can_use_free by done. by rewrite Hused, Z.sub_diag.
  - intros Hempty.
    assert (can_use L (record_n n self now g d).1 now g
      = (bool_decide (Z.max 0 (L - Z.of_nat n) > 0), Z.max 0 (L - Z.of_nat n))) as Hcan.
    { rewrite can_use_free by (by rewrite record_n_pro_groups).
      rewrite record_n_count, Hempty. simpl. done. }
    split; [done|]. intros HL. rewrite Hcan. subst L. by rewrite Z.sub_diag.
  - intros envs env message w Hempty Hw Hg Htext Hpriv Hcmd Hclock Henv Hlen w' notice.
    subst self g.
    destruct (attempts_counted L now envs message w) as [Hpro' Hcount]; try done; [lia|].
    fold w' in Hpro', Hcount. split; [by rewrite Hcount|].
    apply handle_private_refuses; try done.
    rewrite Henv, can_use_free by (by rewrite Hpro'). simpl.
    rewrite Hcount, Hlen, Z.sub_diag. done.
Qed.

Lemma can_use_after_limit_witness :
  let t0 := mkTracker "usage.json" "pro_groups.json" ∅ ∅ in
  let now := Date 2024 5 17 in
  let env := mkEnv now now (Return (mkBotInfo (Some "gendolf_bot") 99))
               (anthropic_says "ok") (λ _, Return ()) in
  let message := mkMessage "hello" 42 "private" None "Ann" None in
  let w := mkWorld t0 (AIChat_init "anthropic" "key" "model") ∅ [] in
  let w' := attempts 2 [env; env] message w in
  can_use 2 (record_n 2 t0 now 42 ∅).1 now 42 = (false, 0)
  ∧ default 0 (usage (tracker w') !! usage_key 42 (_today now)) = 2
  ∧ handle_message 2 env message w'
    = (refused w' (Answer 42 (JStr private_limit_notice)), Return ()).
Proof.
  intros t0 now env message w w'.
  assert (str 42 ∉ pro_groups t0) as Hfree by decide_closed.
  destruct (can_use_after_limit 2 t0 now 42 ∅ 2 Hfree) as (_ & Hlimit & Hattempt).
  split; [exact (proj2 (Hlimit eq_refl) eq_refl)|].
  apply (Hattempt [env; env] env message w); try reflexivity; try discriminate.
  repeat constructor.
Defined.


(** * Further properties of the code *)

(** ** Counters of different groups *)

Lemma usage_key_other_group (g g' : Z) (now day : date) :
  g ≠ g' → usage_key g' (_today day) ≠ usage_key g (_today now).
Proof. intros Hne Heq. apply usage_key_inj in Heq as [-> _]. done. Qed.

(** X1. Records of one group never reach the quota of another group:
    after any number of records for [g], on any day, [can_use] for a
    different group [g'] answers as before. *)
Theorem record_isolates_groups (L : Z) (self : UsageTracker) (now day : date)
    (g g' : Z) (d : disk) (n : nat) :
  g ≠ g' →
  can_use L (record_n n self now g d).1 day g' = can_use L self day g'.
Proof.
  intros Hne. unfold can_use.
  rewrite record_n_pro_groups, record_n_frame by (by apply usage_key_other_group).
  done.
Qed.

Lemma record_isolates_groups_witness :
  let t0 := mkTracker "usage.json" "pro_groups.json" ∅ ∅ in
  can_use 2 (record_n 2 t0 (Date 2024 5 17) 42 ∅).1 (Date 2024 5 17) 43 = (true, 2).
Proof.
  intros t0.
  rewrite (record_isolates_groups 2 t0 (Date 2024 5 17) (Date 2024 5 17) 42 43 ∅ 2)
    by discriminate.
  reflexivity.
Defined.

(** X2. For a group outside the pro set every [record] lowers the
    remaining quota of the day by exactly one until it is 0, where it
    stays; the group is still allowed afterwards exactly when at least
    two messages remained. *)
Theorem remaining_drops_by_one (L : Z) (self : UsageTracker) (now : date) (g : Z)
    (d : disk) :
  str g ∉ pro_groups self →
  (can_use L (record self now g d).1 now g).2
    = Z.max 0 ((can_use L self now g).2 - 1)
  ∧ ((can_use L (record self now g d).1 now g).1 = true
     ↔ (2 ≤ (can_use L self now g).2)%Z).
Proof.
  intros Hpro.
  rewrite (can_use_free L (record self now g d).1) by done.
  rewrite (can_use_free L self) by done.
  rewrite record_usage, lookup_insert_eq. simpl. split; [lia|].
  rewrite bool_decide_eq_true. lia.
Qed.

Lemma remaining_drops_by_one_witness :
  let t0 := mkTracker "usage.json" "pro_groups.json" ∅ ∅ in
  (can_use 2 t0 (Date 2024 5 17) 42).2 = 2
  ∧ (can_use 2 (record t0 (Date 2024 5 17) 42 ∅).1 (Date 2024 5 17) 42).2 = 1.
Proof.
  intros t0. split; [reflexivity|].
  assert (str 42 ∉ pro_groups t0) as Hfree by decide_closed.
  rewrite (proj1 (remaining_drops_by_one 2 t0 (Date 2024 5 17) 42 ∅ Hfree)).
  reflexivity.
Defined.

(** ** Restart: what is written is what is loaded *)

Lemma counters_of_dumps (u : gmap string Z) : counters_of (dumps_usage u) = Some u.
Proof.
  unfold counters_of, dumps_usage.
  rewrite (mapM_fmap_Some _ _ (map_to_list u)) by (by intros [k v]).
  simpl. f_equal.
  rewrite <- (list_to_map_to_list u) at 2.
  apply list_to_map_proper; [|apply reverse_Permutation].
  rewrite fmap_reverse, reverse_Permutation. apply NoDup_fst_map_to_list.
Qed.

Lemma py_set_strings (names : list string) :
  py_set (JArr (JStr <$> names)) = Return (JStr <$> names).
Proof.
  unfold py_set. simpl.
  assert (forallb hashable (JStr <$> names) = true) as ->; [|done].
  by induction names.
Qed.

Lemma groups_of_dumps (s : gset string) :
  groups_of (JStr <$> elements s) = Some s.
Proof.
  unfold groups_of.
  rewrite (mapM_fmap_Some _ _ (elements s)) by done.
  simpl. by rewrite list_to_set_elements_L.
Qed.

Lemma data_files_differ (data_dir : string) :
  path_join data_dir "usage.json" ≠ path_join data_dir "pro_groups.json".
Proof.
  unfold path_join. intros Heq.
  apply (inj (String.app data_dir)) in Heq. discriminate.
Qed.

(** What a successful, well-typed load says about the two files. *)
Lemma init_returns (data_dir : string) (d : disk) (t : UsageTracker) :
  UsageTracker_init data_dir d = Return (Some t) ↔
  file t = path_join data_dir "usage.json"
  ∧ pro_file t = path_join data_dir "pro_groups.json"
  ∧ (∃ doc, match d !! file t with
            | Some c => json_loads c
            | None => Return (JObj [])
            end = Return doc
            ∧ counters_of doc = Some (usage t))
  ∧ (∃ items, match d !! pro_file t with
              | Some c => doc ← json_loads c; py_set doc
              | None => Return []
              end = Return items
              ∧ groups_of items = Some (pro_groups t)).
Proof.
  unfold UsageTracker_init, _load. split.
  - intros H.
    destruct (match d !! path_join data_dir "usage.json" with
              | Some c => json_loads c | None => Return (JObj []) end)
      as [udoc|] eqn:Hu; simpl in H; [|done].
    destruct (match d !! path_join data_dir "pro_groups.json" with
              | Some c => doc ← json_loads c; py_set doc | None => Return [] end)
      as [items|] eqn:Hp; simpl in H; [|done].
    destruct (counters_of udoc) as [u|] eqn:Hcu; simpl in H; [|done].
    destruct (groups_of items) as [p|] eqn:Hgp; simpl in H; [|done].
    injection H as <-. simpl. eauto 10.
  - destruct t as [f p u s]. simpl.
    intros (-> & -> & (udoc & -> & Hu) & (items & -> & Hp)). simpl.
    by rewrite Hu, Hp.
Qed.

Lemma run_ops_snoc (ops : list tracker_op) (o : tracker_op) (st : UsageTracker * disk) :
  run_ops (ops ++ [o]) st = run_op (run_ops ops st) o.
Proof. unfold run_ops. by rewrite foldl_app. Qed.

(** X3. The files always hold the tracker: if the tracker [t0] is what
    [UsageTracker(data_dir)] loads from the disk [d0], then after any
    history of [record] and [add_pro] calls a restart loads exactly the
    tracker the history ended with, counters and pro set. *)
Theorem restart_restores_tracker (data_dir : string) (d0 : disk) (t0 : UsageTracker)
    (ops : list tracker_op) :
  UsageTracker_init data_dir d0 = Return (Some t0) →
  UsageTracker_init data_dir (run_ops ops (t0, d0)).2
  = Return (Some (run_ops ops (t0, d0)).1).
Proof.
  intros H0. induction ops as [|o ops IH] using rev_ind; [done|].
  rewrite run_ops_snoc. destruct (run_ops ops (t0, d0)) as [t d]. simpl in IH.
  apply init_returns in IH as (Hf & Hp & Hu & Hs).
  pose proof (data_files_differ data_dir) as Hne.
  apply init_returns. destruct o as [now chat|chat]; simpl.
  - split; [done|]. split; [done|]. split.
    + eexists. unfold _save. simpl. rewrite lookup_insert_eq. simpl.
      split; [done|]. apply counters_of_dumps.
    + unfold _save. simpl. rewrite lookup_insert_ne by congruence. done.
  - split; [done|]. split; [done|]. split.
    + rewrite lookup_insert_ne by congruence. done.
    + eexists. rewrite lookup_insert_eq. simpl. rewrite py_set_strings.
      split; [done|]. apply groups_of_dumps.
Qed.

Lemma restart_restores_tracker_witness :
  let t0 := mkTracker "data/usage.json" "data/pro_groups.json" ∅ ∅ in
  let history := [Record_at (Date 2024 5 17) 42; Add_pro 7;
                  Record_at (Date 2024 5 18) 42; Record_at (Date 2024 5 18) 43] in
  UsageTracker_init "data" (run_ops history (t0, ∅)).2
  = Return (Some (run_ops history (t0, ∅)).1).
Proof.
  intros t0 history.
  exact (restart_restores_tracker "data" ∅ t0 history eq_refl).
Defined.

(** ** Active groups *)

Lemma keys_insert_fresh (u : gmap string Z) (k : string) (v : Z) :
  u !! k = None → (map_to_list (<[k := v]> u)).*1 ≡ₚ k :: (map_to_list u).*1.
Proof. intros Hk. by rewrite map_to_list_insert. Qed.

Lemma keys_insert_present (u : gmap string Z) (k : string) (v v0 : Z) :
  u !! k = Some v0 → (map_to_list (<[k := v]> u)).*1 ≡ₚ (map_to_list u).*1.
Proof.
  intros Hk. rewrite <- (insert_delete_id u k v0 Hk) at 2.
  rewrite <- (insert_delete_eq u k v).
  by rewrite !keys_insert_fresh by apply lookup_delete_eq.
Qed.

Lemma active_after_insert (u : gmap string Z) (k suffix : string) (v : Z) :
  length (filter (λ k, endswith k suffix = true) (map_to_list (<[k := v]> u)).*1)
  = (match u !! k with
     | Some _ => 0
     | None => if endswith k suffix then 1 else 0
     end
     + length (filter (λ k, endswith k suffix = true) (map_to_list u).*1))%nat.
Proof.
  destruct (u !! k) as [v0|] eqn:Hk.
  - by rewrite (keys_insert_present u k v v0 Hk).
  - rewrite (keys_insert_fresh u k v Hk), filter_cons.
    destruct (endswith k suffix); by case_decide.
Qed.

(** X4. [active_groups_today] counts the groups that recorded today: a
    [record] today adds one to it when the group had no counter for today
    and leaves it as it is otherwise; a [record] on any other day does
    not change today's figure. *)
Theorem active_groups_follow_records (self : UsageTracker) (now : date) (g : Z)
    (d : disk) :
  active_groups_today (get_stats (record self now g d).1 now)
    = active_groups_today (get_stats self now)
      + match usage self !! usage_key g (_today now) with Some _ => 0 | None => 1 end
  ∧ (∀ day, valid_date now → valid_date day → day ≠ now →
       active_groups_today (get_stats (record self day g d).1 now)
       = active_groups_today (get_stats self now)).
Proof.
  split.
  - simpl. rewrite !py_sum_ones, active_after_insert.
    assert (endswith (usage_key g (_today now)) (":" +:+ _today now) = true) as ->
      by (apply endswith_spec; by exists (str g)).
    destruct (usage self !! usage_key g (_today now)); lia.
  - intros day Hnow Hday Hne. simpl. rewrite !py_sum_ones, active_after_insert.
    destruct (endswith (usage_key g (_today day)) (":" +:+ _today now)) eqn:Hend.
    + apply endswith_spec, key_suffix_is_day in Hend; done.
    + by destruct (usage self !! usage_key g (_today day)).
Qed.

Lemma active_groups_follow_records_witness :
  let t0 := mkTracker "usage.json" "pro_groups.json" ∅ ∅ in
  let t1 := (record t0 (Date 2024 5 17) 42 ∅).1 in
  active_groups_today (get_stats (record t1 (Date 2024 5 16) 43 ∅).1 (Date 2024 5 17))
  = 1.
Proof.
  intros t0 t1.
  destruct (active_groups_follow_records t1 (Date 2024 5 17) 43 ∅) as [_ Hother].
  rewrite (Hother (Date 2024 5 16)).
  - reflexivity.
  - unfold valid_date; simpl; lia.
  - unfold valid_date; simpl; lia.
  - discriminate.
Defined.

(** ** The responder: bounds, isolation, replies *)

(** X5. The memory of every group stays within [max_memory + 1] turns
    through any sequence of calls, once it is so, and at the moment a
    request is built the group holds at most [max_memory] turns. *)
Theorem memory_stays_within_cap_plus_one (calls : list call) (self : AIChat) :
  (0 < max_memory self)%nat →
  (∀ chat, (length (turns_of self chat) ≤ max_memory self + 1)%nat) →
  (∀ chat, (length (turns_of (respond_all calls self) chat) ≤ max_memory self + 1)%nat)
  ∧ (∀ chat user msg,
       (length (remember_user (respond_all calls self) chat user msg)
          ≤ max_memory self)%nat).
Proof.
  intros Hcap Hinit. split.
  - induction calls as [|c calls IH] using rev_ind; [done|].
    intros chat. rewrite respond_all_snoc. unfold respond_call.
    destruct (decide (call_chat c = chat)) as [<-|Hne].
    + etrans; [apply respond_memory_bound|]; rewrite respond_all_max_memory; lia.
    + by rewrite respond_turns_other.
  - intros chat user msg. rewrite <- (respond_all_max_memory calls self).
    apply remember_user_length. by rewrite respond_all_max_memory.
Qed.

Lemma memory_stays_within_cap_plus_one_witness :
  let ai0 := AIChat_init "anthropic" "key" "model" in
  let c := mkCall (anthropic_says "ok") 7 "Ann" "hello" "Group" in
  (length (turns_of (respond_all (replicate 40 c) ai0) 7) ≤ 21)%nat.
Proof.
  intros ai0 c.
  assert (0 < max_memory ai0)%nat as Hcap by (simpl; lia).
  assert (∀ chat, (length (turns_of ai0 chat) ≤ max_memory ai0 + 1)%nat) as Hinit.
  { intros chat. unfold turns_of. simpl. rewrite lookup_empty. simpl. lia. }
  exact (proj1 (memory_stays_within_cap_plus_one (replicate 40 c) ai0 Hcap Hinit) 7).
Defined.

Lemma call_provider_config (urlopen : network) (a b : AIChat) system messages :
  provider a = provider b → api_key a = api_key b → model a = model b →
  call_provider urlopen a system messages = call_provider urlopen b system messages.
Proof.
  intros Hp Hk Hm. unfold call_provider, _call_anthropic, _call_openai.
  by rewrite Hp, Hk, Hm.
Qed.

(** X6. A call reads and writes the memory of its own group only: two
    objects with the same configuration that agree on the turns of the
    group send the same request and return the same value, whatever
    their other groups hold, and the call leaves the turns of every
    other group as they were. *)
Theorem respond_uses_own_group_only (urlopen : network) (a b : AIChat) (chat : Z)
    (user msg group : string) :
  provider a = provider b → api_key a = api_key b → model a = model b →
  max_memory a = max_memory b →
  memory a !! chat = memory b !! chat →
  (respond urlopen a chat user msg group).1.2
    = (respond urlopen b chat user msg group).1.2
  ∧ (respond urlopen a chat user msg group).2
    = (respond urlopen b chat user msg group).2
  ∧ turns_of (respond urlopen a chat user msg group).1.1 chat
    = turns_of (respond urlopen b chat user msg group).1.1 chat
  ∧ (∀ chat', chat ≠ chat' →
       turns_of (respond urlopen a chat user msg group).1.1 chat' = turns_of a chat').
Proof.
  intros Hp Hk Hm Hmax Hmem.
  assert (remember_user a chat user msg = remember_user b chat user msg) as Hturns
    by (unfold remember_user; by rewrite Hmem, Hmax).
  split; [|split; [|split]]; try (intros chat' Hne; by apply respond_turns_other).
  all: rewrite !respond_unfold; cbv zeta; rewrite Hturns;
    rewrite (call_provider_config urlopen
               (set_memory a chat (remember_user b chat user msg))
               (set_memory b chat (remember_user b chat user msg))) by done;
    destruct (call_provider urlopen _ _ _).2 as [resp|[e|e]]; simpl;
    by rewrite ?turns_of_set_memory.
Qed.

Lemma respond_uses_own_group_only_witness :
  let a := AIChat_init "anthropic" "key" "model" in
  let b := (respond (anthropic_says "a secret") a 8 "Bob" "private matter" "Other").1.1 in
  (respond (anthropic_says "ok") b 7 "Ann" "hello" "Group").1.2
  = (respond (anthropic_says "ok") a 7 "Ann" "hello" "Group").1.2.
Proof.
  intros a b.
  exact (proj1 (respond_uses_own_group_only (anthropic_says "ok") b a 7 "Ann" "hello"
                  "Group" eq_refl eq_refl eq_refl eq_refl eq_refl)).
Defined.

(** X7. With the first provider the reply is the value under ["text"]
    in the first element of the ["content"] list of the response; other
    members and further elements are ignored.  [respond] returns that
    value, stores it as the assistant turn after the user turn, and logs
    no error. *)
Theorem anthropic_reply_is_first_block (urlopen : network) (self : AIChat) (chat : Z)
    (user msg group : string) (members block : list (string * json))
    (more : list json) (t : json) :
  provider self = "anthropic" →
  (∀ req, urlopen req = Return (Json (JObj members))) →
  dict_get "content" members = Some (JArr (JObj block :: more)) →
  dict_get "text" block = Some t →
  (respond urlopen self chat user msg group).2 = Return t
  ∧ turns_of (respond urlopen self chat user msg group).1.1 chat
    = remember_user self chat user msg ++ [AssistantTurn t]
  ∧ (∀ m, LogError m ∉ (respond urlopen self chat user msg group).1.2).
Proof.
  intros Hp Hnet Hcontent Htext. rewrite respond_unfold. cbv zeta.
  unfold call_provider. simpl. rewrite Hp. simpl.
  rewrite Hnet. simpl. rewrite Hcontent. simpl. rewrite Htext. simpl.
  rewrite turns_of_set_memory. split; [done|]. split; [done|].
  intros m Hin. apply list_elem_of_singleton in Hin. discriminate.
Qed.

Lemma anthropic_reply_is_first_block_witness :
  let net : network := λ _, Return (Json (JObj
    [("id", JStr "msg_1");
     ("content", JArr [JObj [("type", JStr "text"); ("text", JStr "first")];
                       JObj [("type", JStr "text"); ("text", JStr "second")]]);
     ("stop_reason", JStr "end_turn")])) in
  (respond net (AIChat_init "anthropic" "key" "model") 7 "Ann" "hello" "Group").2
  = Return (JStr "first").
Proof.
  intros net.
  refine (proj1 (anthropic_reply_is_first_block net
                   (AIChat_init "anthropic" "key" "model") 7 "Ann" "hello" "Group"
                   _ _ _ (JStr "first") eq_refl (λ _, eq_refl) _ _));
    reflexivity.
Defined.

(** X8. With the second provider the reply is the value under
    ["content"] of the ["message"] of the first element of ["choices"];
    it is returned and stored whatever its type, so a null content makes
    [respond] return None, not the fallback text. *)
Theorem openai_reply_is_first_choice (urlopen : network) (self : AIChat) (chat : Z)
    (user msg group : string) (members choice message : list (string * json))
    (more : list json) (t : json) :
  provider self = "openai" →
  (∀ req, urlopen req = Return (Json (JObj members))) →
  dict_get "choices" members = Some (JArr (JObj choice :: more)) →
  dict_get "message" choice = Some (JObj message) →
  dict_get "content" message = Some t →
  (respond urlopen self chat user msg group).2 = Return t
  ∧ turns_of (respond urlopen self chat user msg group).1.1 chat
    = remember_user self chat user msg ++ [AssistantTurn t]
  ∧ (∀ m, LogError m ∉ (respond urlopen self chat user msg group).1.2).
Proof.
  intros Hp Hnet Hchoices Hmessage Hcontent. rewrite respond_unfold. cbv zeta.
  unfold call_provider. simpl. rewrite Hp. simpl.
  rewrite Hnet. simpl. rewrite Hchoices. simpl. rewrite Hmessage. simpl.
  rewrite Hcontent. simpl.
  rewrite turns_of_set_memory. split; [done|]. split; [done|].
  intros m Hin. apply list_elem_of_singleton in Hin. discriminate.
Qed.

Lemma openai_reply_is_first_choice_witness :
  (respond (openai_says JNull) (AIChat_init "openai" "key" "model")
     7 "Ann" "hello" "Group").2 = Return JNull.
Proof.
  refine (proj1 (openai_reply_is_first_choice (openai_says JNull)
                   (AIChat_init "openai" "key" "model") 7 "Ann" "hello"
                   "Group" _ _ _ _ JNull eq_refl (λ _, eq_refl) _ _ _));
    reflexivity.
Defined.

Lemma requests_app (l k : list event) : requests (l ++ k) = requests l ++ requests k.
Proof. apply omap_app. Qed.

(** X9. One call, one request: with a supported provider [respond]
    issues exactly one HTTP request, to that provider's endpoint and with
    a timeout of 30, whether the call then succeeds, fails or is
    cancelled; there is no retry.  With any other provider value it
    issues none. *)
Theorem one_request_per_call (urlopen : network) (self : AIChat) (chat : Z)
    (user msg group : string) :
  (provider self = "anthropic" →
     ∃ r, requests (respond urlopen self chat user msg group).1.2 = [r]
          ∧ url r = "https://api.anthropic.com/v1/messages" ∧ timeout r = 30)
  ∧ (provider self = "openai" →
     ∃ r, requests (respond urlopen self chat user msg group).1.2 = [r]
          ∧ url r = "https://api.openai.com/v1/chat/completions" ∧ timeout r = 30)
  ∧ (provider self ≠ "anthropic" → provider self ≠ "openai" →
     requests (respond urlopen self chat user msg group).1.2 = []).
Proof.
  split; [|split].
  - intros Hp. rewrite respond_unfold. cbv zeta. unfold call_provider.
    cbn [provider set_memory]. rewrite Hp. cbn [String.eqb Ascii.eqb Bool.eqb].
    match goal with
    | |- context [(_call_anthropic ?n ?a ?sy ?ms).2] =>
        destruct (_call_anthropic n a sy ms).2 as [resp|[e|e]]; simpl; eauto
    end.
  - intros Hp. rewrite respond_unfold. cbv zeta. unfold call_provider.
    cbn [provider set_memory]. rewrite Hp. cbn [String.eqb Ascii.eqb Bool.eqb].
    match goal with
    | |- context [(_call_openai ?n ?a ?sy ?ms).2] =>
        destruct (_call_openai n a sy ms).2 as [resp|[e|e]]; simpl; eauto
    end.
  - intros H1 H2. rewrite respond_unfold. cbv zeta.
    by rewrite call_provider_unknown.
Qed.

Lemma one_request_per_call_witness :
  length (requests (respond connection_refused (AIChat_init "openai" "key" "model")
                      7 "Ann" "hello" "Group").1.2) = 1%nat.
Proof.
  destruct (one_request_per_call connection_refused (AIChat_init "openai" "key" "model")
              7 "Ann" "hello" "Group") as (_ & Hopenai & _).
  destruct (Hopenai eq_refl) as (r & -> & _). reflexivity.
Defined.

(** X10. An exception outside class [Exception] raised by the request
    (a cancellation) is not turned into the fallback text: it escapes
    from [respond], nothing is logged, and the user turn stays in memory
    without a reply after it. *)
Theorem cancellation_escapes_respond (urlopen : network) (self : AIChat) (chat : Z)
    (user msg group e : string) :
  provider self = "anthropic" ∨ provider self = "openai" →
  (∀ req, urlopen req = Raise (BaseException e)) →
  (respond urlopen self chat user msg group).2 = Raise (BaseException e)
  ∧ turns_of (respond urlopen self chat user msg group).1.1 chat
    = remember_user self chat user msg
  ∧ (∀ m, LogError m ∉ (respond urlopen self chat user msg group).1.2).
Proof.
  intros Hp Hnet. rewrite respond_unfold. cbv zeta.
  destruct (call_provider_failures urlopen
              (set_memory self chat (remember_user self chat user msg))
              (system_prompt group)
              (build_message <$> last_n 10 (remember_user self chat user msg)) Hp)
    as (Hraise & _).
  rewrite (Hraise _ Hnet). simpl. rewrite turns_of_set_memory.
  split; [done|]. split; [done|].
  intros m Hin. unfold call_provider in Hin. simpl in Hin.
  destruct Hp as [Hp|Hp]; rewrite Hp in Hin; simpl in Hin;
    apply list_elem_of_singleton in Hin; discriminate.
Qed.

Lemma cancellation_escapes_respond_witness :
  (respond cancelled (AIChat_init "anthropic" "key" "model") 7 "Ann" "hello" "Group").2
  = Raise (BaseException "CancelledError").
Proof.
  exact (proj1 (cancellation_escapes_respond cancelled
                  (AIChat_init "anthropic" "key" "model") 7 "Ann" "hello" "Group"
                  "CancelledError" (or_introl eq_refl) (λ _, eq_refl))).
Defined.

(** ** The handlers, beyond the refusal *)

(** An addressed group message within quota: the usage is recorded, then
    [respond] runs on the cleaned text, and its value is sent as reply. *)
Lemma handle_group_accepted (L : Z) (env : Env) (message : Message) (w : World)
    (bot_info : BotInfo) :
  (can_use L (tracker w) (clock_can_use env) (chat_id message)).1 = true →
  text message ≠ "" → chat_type message ≠ "private" →
  bot_me env = Return bot_info →
  is_mentioned (username bot_info) (text message) || is_reply bot_info message = true →
  let cleaned := strip (replace ("@" +:+ fmt (username bot_info)) "" None (text message)) in
  let said := if String.eqb cleaned "" then "Hi!" else cleaned in
  let counted := record (tracker w) (clock_record env) (chat_id message) (files w) in
  let run := respond (urlopen env) (ai w) (chat_id message)
               (or_default (Some (from_full_name message)) "User") said
               (or_default (chat_title message) "Group") in
  handle_message L env message w =
  match run.2 with
  | Return response =>
      (mkWorld counted.1 run.1.1 counted.2
         ((trace w ++ run.1.2) ++ [Reply (chat_id message) response]),
       deliver env (Reply (chat_id message) response))
  | Raise e => (mkWorld counted.1 run.1.1 counted.2 (trace w ++ run.1.2), Raise e)
  end.
Proof.
  intros Hyes Htext Hgroup Hme Haddr cleaned said counted run.
  subst cleaned said counted run. unfold handle_message.
  rewrite (proj2 (String.eqb_neq _ _) Htext), (proj2 (String.eqb_neq _ _) Hgroup).
  unfold mbind at 1, M_bind at 1, meM. rewrite Hme.
  apply orb_true_iff in Haddr.
  assert (negb (is_mentioned (username bot_info) (text message))
          && negb (is_reply bot_info message) = false) as ->
    by (destruct Haddr as [-> | ->]; simpl; by rewrite ?andb_false_r).
  run_gate Hyes. unfold recordM, respondM, send. simpl.
  match goal with
  | |- context [respond ?n ?a ?c ?u ?m ?g] =>
      destruct (respond n a c u m g) as [[a' evs] [resp|e]]
  end; reflexivity.
Qed.

(** X11. The usage is recorded before the provider is called, so a call
    that fails still costs the group one message of the day: when the
    request raises an exception of class [Exception] the counter has gone
    up by one and the fallback text is the reply; when it is cancelled
    the counter has gone up by one as well, nothing is sent, and the
    handler raises. *)
Theorem failed_call_costs_a_message (L : Z) (env : Env) (message : Message) (w : World)
    (bot_info : BotInfo) (e : raised) :
  (can_use L (tracker w) (clock_can_use env) (chat_id message)).1 = true →
  text message ≠ "" → chat_type message ≠ "private" →
  bot_me env = Return bot_info →
  is_mentioned (username bot_info) (text message) || is_reply bot_info message = true →
  provider (ai w) = "anthropic" ∨ provider (ai w) = "openai" →
  (∀ req, urlopen env req = Raise e) →
  let key := usage_key (chat_id message) (_today (clock_record env)) in
  let w' := (handle_message L env message w).1 in
  usage (tracker w') !! key = Some (default 0 (usage (tracker w) !! key) + 1)
  ∧ match e with
    | Exception what =>
        ∃ evs, trace w' = (trace w ++ evs) ++ [Reply (chat_id message) (JStr fallback_text)]
               ∧ (handle_message L env message w).2
                 = deliver env (Reply (chat_id message) (JStr fallback_text))
    | BaseException what =>
        (handle_message L env message w).2 = Raise e
        ∧ ∀ chat body, Reply chat body ∉ drop (length (trace w)) (trace w')
    end.
Proof.
  intros Hyes Htext Hgroup Hme Haddr Hp Hnet key w'. subst w'.
  rewrite (handle_group_accepted L env message w bot_info) by done. cbv zeta.
  rewrite respond_unfold. cbv zeta.
  match goal with
  | |- context [call_provider ?n ?a ?sy ?ms] =>
      destruct (call_provider_failures n a sy ms Hp) as (Hraise & _);
      pose proof (Hraise e Hnet) as Hfail
  end.
  rewrite Hfail. destruct e as [what|what]; simpl.
  - rewrite lookup_insert_eq. split; [done|]. eexists. split; done.
  - rewrite lookup_insert_eq. split; [done|]. split; [done|].
    intros chat body Hin. rewrite drop_app_length in Hin.
    unfold call_provider in Hin.
    destruct Hp as [Hp|Hp]; simpl in Hin; rewrite Hp in Hin; simpl in Hin;
      apply list_elem_of_singleton in Hin; discriminate.
Qed.

Lemma failed_call_costs_a_message_witness :
  let t0 := mkTracker "data/usage.json" "data/pro_groups.json" ∅ ∅ in
  let w := mkWorld t0 (AIChat_init "anthropic" "key" "model") ∅ [] in
  let env := mkEnv (Date 2024 5 17) (Date 2024 5 17)
               (Return (mkBotInfo (Some "gendolf_bot") 99))
               connection_refused (λ _, Return ()) in
  let message := mkMessage "@gendolf_bot hello" (-1001) "supergroup"
                   (Some "Devs") "Ann" None in
  usage (tracker (handle_message 2 env message w).1)
    !! usage_key (-1001) (_today (Date 2024 5 17)) = Some 1.
Proof.
  intros t0 w env message.
  assert (text message ≠ "") as Htext by discriminate.
  assert (chat_type message ≠ "private") as Hgr by discriminate.
  exact (proj1 (failed_call_costs_a_message 2 env message w
                  (mkBotInfo (Some "gendolf_bot") 99) _
                  eq_refl Htext Hgr eq_refl eq_refl (or_introl eq_refl) (λ _, eq_refl))).
Defined.

(** X12. A group message that consists of the mention only (nothing is
    left once the mention and the surrounding blanks are removed) is
    served as the greeting "Hi!": that is the user turn the group's
    memory receives, under the sender's name or "User" when the name is
    empty. *)
Theorem bare_mention_says_hi (L : Z) (env : Env) (message : Message) (w : World)
    (bot_info : BotInfo) :
  (can_use L (tracker w) (clock_can_use env) (chat_id message)).1 = true →
  text message ≠ "" → chat_type message ≠ "private" →
  bot_me env = Return bot_info →
  is_mentioned (username bot_info) (text message) || is_reply bot_info message = true →
  strip (replace ("@" +:+ fmt (username bot_info)) "" None (text message)) = "" →
  let name := or_default (Some (from_full_name message)) "User" in
  let stored := remember_user (ai w) (chat_id message) name "Hi!" in
  last stored = Some (UserTurn name "Hi!")
  ∧ (turns_of (ai (handle_message L env message w).1) (chat_id message) = stored
     ∨ ∃ resp, turns_of (ai (handle_message L env message w).1) (chat_id message)
               = stored ++ [AssistantTurn resp]).
Proof.
  intros Hyes Htext Hgroup Hme Haddr Hbare name stored.
  split; [apply remember_user_last|].
  rewrite (handle_group_accepted L env message w bot_info) by done. cbv zeta.
  rewrite Hbare. simpl String.eqb. cbv iota.
  pose proof (respond_turns (urlopen env) (ai w) (chat_id message) name "Hi!"
                (or_default (chat_title message) "Group")) as Hturns.
  fold name.
  destruct (respond (urlopen env) (ai w) (chat_id message) name "Hi!"
              (or_default (chat_title message) "Group")) as [[a evs] [resp|e]];
    exact Hturns.
Qed.

Lemma bare_mention_says_hi_witness :
  let t0 := mkTracker "data/usage.json" "data/pro_groups.json" ∅ ∅ in
  let w := mkWorld t0 (AIChat_init "anthropic" "key" "model") ∅ [] in
  let env := mkEnv (Date 2024 5 17) (Date 2024 5 17)
               (Return (mkBotInfo (Some "gendolf_bot") 99))
               (anthropic_says "hello there") (λ _, Return ()) in
  let message := mkMessage "  @gendolf_bot " (-1001) "supergroup" (Some "Devs") "" None in
  last (remember_user (ai w) (-1001) "User" "Hi!") = Some (UserTurn "User" "Hi!")
  ∧ turns_of (ai (handle_message 2 env message w).1) (-1001)
    = [UserTurn "User" "Hi!"; AssistantTurn (JStr "hello there")].
Proof.
  intros t0 w env message.
  assert (text message ≠ "") as Htext by discriminate.
  assert (chat_type message ≠ "private") as Hgr by discriminate.
  destruct (bare_mention_says_hi 2 env message w (mkBotInfo (Some "gendolf_bot") 99)
              eq_refl Htext Hgr eq_refl eq_refl eq_refl) as [Hlast _].
  split; [exact Hlast|reflexivity].
Defined.

(** X13. A pro group is never refused, whatever its counters hold, and
    its messages are still counted: the handler records the usage of a
    pro group like that of any other. *)
Theorem pro_group_is_served_and_counted (L : Z) (env : Env) (message : Message)
    (w : World) (bot_info : BotInfo) :
  str (chat_id message) ∈ pro_groups (tracker w) →
  text message ≠ "" → chat_type message ≠ "private" →
  bot_me env = Return bot_info →
  is_mentioned (username bot_info) (text message) || is_reply bot_info message = true →
  let key := usage_key (chat_id message) (_today (clock_record env)) in
  let w' := (handle_message L env message w).1 in
  tracker w' = (record (tracker w) (clock_record env) (chat_id message) (files w)).1
  ∧ usage (tracker w') !! key = Some (default 0 (usage (tracker w) !! key) + 1)
  ∧ (∀ notice, (handle_message L env message w).1 ≠ refused w notice).
Proof.
  intros Hpro Htext Hgroup Hme Haddr key w'. subst w'.
  rewrite (handle_group_accepted L env message w bot_info)
    by (try done; by rewrite can_use_pro).
  cbv zeta.
  assert (usage (tracker w) ≠ usage (record (tracker w) (clock_record env)
                                       (chat_id message) (files w)).1) as Hchanged.
  { rewrite record_usage. intros Heq.
    assert (usage (tracker w) !! key
            = Some (default 0 (usage (tracker w) !! key) + 1)) as Hk
      by (rewrite Heq at 1; apply lookup_insert_eq).
    destruct (usage (tracker w) !! key); simpl in Hk; [injection Hk; lia|done]. }
  subst key.
  match goal with
  | |- context [match ?r with Return _ => _ | Raise _ => _ end] => destruct r
  end; simpl; (split; [done|]); (split; [by rewrite lookup_insert_eq|]);
    intros notice Heq; apply Hchanged; unfold refused in Heq;
    injection Heq as Ht _ _; exact (f_equal usage (eq_sym Ht)).
Qed.

Lemma pro_group_is_served_and_counted_witness :
  let t0 := mkTracker "data/usage.json" "data/pro_groups.json" ∅ ∅ in
  let t := (add_pro (record_n 2 t0 (Date 2024 5 17) (-1001) ∅).1 (-1001) ∅).1 in
  let w := mkWorld t (AIChat_init "anthropic" "key" "model") ∅ [] in
  let env := mkEnv (Date 2024 5 17) (Date 2024 5 17)
               (Return (mkBotInfo (Some "gendolf_bot") 99))
               (anthropic_says "ok") (λ _, Return ()) in
  let message := mkMessage "@gendolf_bot hello" (-1001) "supergroup"
                   (Some "Devs") "Ann" None in
  usage (tracker (handle_message 2 env message w).1)
    !! usage_key (-1001) (_today (Date 2024 5 17)) = Some 3.
Proof.
  intros t0 t w env message.
  assert (text message ≠ "") as Htext by discriminate.
  assert (chat_type message ≠ "private") as Hgr by discriminate.
  assert (str (chat_id message) ∈ pro_groups (tracker w)) as Hpro by decide_closed.
  destruct (pro_group_is_served_and_counted 2 env message w
              (mkBotInfo (Some "gendolf_bot") 99) Hpro Htext Hgr eq_refl eq_refl)
    as (_ & Hcount & _).
  refine (eq_trans Hcount _). reflexivity.
Defined.

(** X14. Text that is not addressed to the bot is ignored without a
    trace: an empty text, a private text that starts with "/", and a
    group text that neither mentions the bot nor replies to it leave the
    world exactly as it was - no quota check, no record, no request, no
    message.  When [bot.me()] fails in a group, its exception escapes and
    the world is unchanged as well. *)
Theorem unaddressed_text_is_ignored (L : Z) (env : Env) (message : Message)
    (w : World) :
  (text message = "" → handle_message L env message w = (w, Return ()))
  ∧ (text message ≠ "" → chat_type message = "private" →
     startswith (text message) "/" = true →
     handle_message L env message w = (w, Return ()))
  ∧ (∀ bot_info, text message ≠ "" → chat_type message ≠ "private" →
     bot_me env = Return bot_info →
     is_mentioned (username bot_info) (text message) = false →
     is_reply bot_info message = false →
     handle_message L env message w = (w, Return ()))
  ∧ (∀ e, text message ≠ "" → chat_type message ≠ "private" →
     bot_me env = Raise e →
     handle_message L env message w = (w, Raise e)).
Proof.
  unfold handle_message. split; [|split; [|split]].
  - by intros ->.
  - intros Htext Hpriv Hcmd.
    by rewrite (proj2 (String.eqb_neq _ _) Htext), Hpriv, Hcmd.
  - intros bot_info Htext Hgroup Hme Hmention Hreply.
    rewrite (proj2 (String.eqb_neq _ _) Htext), (proj2 (String.eqb_neq _ _) Hgroup).
    unfold mbind, M_bind, meM. by rewrite Hme, Hmention, Hreply.
  - intros e Htext Hgroup Hme.
    rewrite (proj2 (String.eqb_neq _ _) Htext), (proj2 (String.eqb_neq _ _) Hgroup).
    unfold mbind, M_bind, meM. by rewrite Hme.
Qed.

Lemma unaddressed_text_is_ignored_witness :
  let t0 := mkTracker "data/usage.json" "data/pro_groups.json" ∅ ∅ in
  let w := mkWorld t0 (AIChat_init "anthropic" "key" "model") ∅ [] in
  let env := mkEnv (Date 2024 5 17) (Date 2024 5 17)
               (Return (mkBotInfo (Some "gendolf_bot") 99))
               (anthropic_says "ok") (λ _, Return ()) in
  let message := mkMessage "hello @someone_else" (-1001) "supergroup"
                   (Some "Devs") "Ann" (Some 12345) in
  handle_message 2 env message w = (w, Return ()).
Proof.
  intros t0 w env message.
  destruct (unaddressed_text_is_ignored 2 env message w) as (_ & _ & Hgroup & _).
  apply (Hgroup (mkBotInfo (Some "gendolf_bot") 99));
    reflexivity || discriminate.
Defined.

(** X15. [/ask] with nothing after it (or blanks only) asks for a
    question and does nothing else: the quota is neither checked nor
    used, so the hint is sent also to a group whose quota is exhausted. *)
Theorem ask_without_question (L : Z) (env : Env) (message : Message) (w : World) :
  strip (replace "/ask" "" (Some 1%nat) (text message)) = "" →
  let hint := Answer (chat_id message) (JStr "Usage: /ask <your question>") in
  cmd_ask L env message w = (refused w hint, deliver env hint).
Proof. intros Hq hint. unfold cmd_ask. by rewrite Hq. Qed.

Lemma ask_without_question_witness :
  let t0 := mkTracker "data/usage.json" "data/pro_groups.json" ∅ ∅ in
  let exhausted := (record_n 2 t0 (Date 2024 5 17) (-1001) ∅).1 in
  let w := mkWorld exhausted (AIChat_init "anthropic" "key" "model") ∅ [] in
  let env := mkEnv (Date 2024 5 17) (Date 2024 5 17)
               (Return (mkBotInfo (Some "gendolf_bot") 99))
               (anthropic_says "ok") (λ _, Return ()) in
  let message := mkMessage "/ask   " (-1001) "supergroup" (Some "Devs") "Ann" None in
  cmd_ask 2 env message w
  = (refused w (Answer (-1001) (JStr "Usage: /ask <your question>")), Return ()).
Proof.
  intros t0 exhausted w env message.
  exact (ask_without_question 2 env message w eq_refl).
Defined.

(** X16. The two administrative commands do nothing at all for a sender
    other than the configured operator: no answer, no change of the
    tracker, the files or the AI object. *)
Theorem admin_commands_need_the_operator (ADMIN_ID : Z) (int : string → result Z)
    (env : Env) (clock_stats : date) (from_id : Z) (message : Message) (w : World) :
  from_id ≠ ADMIN_ID →
  cmd_admin_pro ADMIN_ID int env from_id message w = (w, Return ())
  ∧ cmd_admin_stats ADMIN_ID env clock_stats from_id message w = (w, Return ()).
Proof.
  intros Hne. unfold cmd_admin_pro, cmd_admin_stats.
  by rewrite (proj2 (Z.eqb_neq _ _) Hne).
Qed.

Lemma admin_commands_need_the_operator_witness :
  let t0 := mkTracker "data/usage.json" "data/pro_groups.json" ∅ ∅ in
  let w := mkWorld t0 (AIChat_init "anthropic" "key" "model") ∅ [] in
  let env := mkEnv (Date 2024 5 17) (Date 2024 5 17)
               (Return (mkBotInfo (Some "gendolf_bot") 99))
               (anthropic_says "ok") (λ _, Return ()) in
  let message := mkMessage "/admin_pro -1001" 777 "private" None "Mallory" None in
  cmd_admin_pro 5720942233 int_of_decimal env 777 message w = (w, Return ()).
Proof.
  intros t0 w env message.
  assert (777 ≠ 5720942233) as Hne by discriminate.
  exact (proj1 (admin_commands_need_the_operator 5720942233 int_of_decimal env
                  (Date 2024 5 17) 777 message w Hne)).
Defined.

(** X17. When the operator sends [/admin_pro] followed by a text that
    converts to the integer [g], the group [g] is added to the pro set
    and the pro file is rewritten with the whole set; the counters are
    untouched, the confirmation names [g], and from then on [can_use]
    gives [g] (true, 999) on every day. *)
Theorem admin_grant_makes_group_pro (ADMIN_ID : Z) (int : string → result Z)
    (env : Env) (message : Message) (w : World) (cmd arg : string)
    (rest : list string) (g : Z) :
  split (text message) = cmd :: arg :: rest →
  int arg = Return g →
  let confirmation :=
    Answer (chat_id message) (JStr ("✅ Group " +:+ str g +:+ " upgraded to Pro")) in
  let w' := (cmd_admin_pro ADMIN_ID int env ADMIN_ID message w).1 in
  (cmd_admin_pro ADMIN_ID int env ADMIN_ID message w).2 = deliver env confirmation
  ∧ trace w' = trace w ++ [confirmation]
  ∧ pro_groups (tracker w') = pro_groups (tracker w) ∪ {[str g]}
  ∧ usage (tracker w') = usage (tracker w)
  ∧ files w' = <[pro_file (tracker w) :=
                   Json (JArr (JStr <$> elements (pro_groups (tracker w) ∪ {[str g]})))]>
                 (files w)
  ∧ ai w' = ai w
  ∧ (∀ L now, can_use L (tracker w') now g = (true, 999)).
Proof.
  intros Hsplit Hint confirmation w'. subst w' confirmation.
  unfold cmd_admin_pro. rewrite Z.eqb_refl, Hsplit. simpl.
  unfold mbind, M_bind, liftR. rewrite Hint. simpl.
  repeat split. intros L now. apply can_use_pro. simpl. set_solver.
Qed.

Lemma admin_grant_makes_group_pro_witness :
  let t0 := mkTracker "data/usage.json" "data/pro_groups.json" ∅ ∅ in
  let exhausted := (record_n 2 t0 (Date 2024 5 17) (-1001) ∅).1 in
  let w := mkWorld exhausted (AIChat_init "anthropic" "key" "model") ∅ [] in
  let env := mkEnv (Date 2024 5 17) (Date 2024 5 17)
               (Return (mkBotInfo (Some "gendolf_bot") 99))
               (anthropic_says "ok") (λ _, Return ()) in
  let message := mkMessage "/admin_pro  -1001" 5720942233 "private" None "Op" None in
  can_use 2 (tracker w) (Date 2024 5 17) (-1001) = (false, 0)
  ∧ can_use 2 (tracker (cmd_admin_pro 5720942233 int_of_decimal env 5720942233
                          message w).1) (Date 2024 5 17) (-1001) = (true, 999).
Proof.
  intros t0 exhausted w env message. split; [reflexivity|].
  destruct (admin_grant_makes_group_pro 5720942233 int_of_decimal env message w
              "/admin_pro" "-1001" [] (-1001) eq_refl eq_refl)
    as (_ & _ & _ & _ & _ & _ & Hpro).
  exact (Hpro 2 (Date 2024 5 17)).
Defined.

(** X18. [/admin_pro] from the operator with no argument answers with
    the usage hint and grants nothing; with an argument that [int]
    rejects, the [ValueError] escapes from the handler before anything is
    changed or sent. *)
Theorem admin_grant_needs_an_integer (ADMIN_ID : Z) (int : string → result Z)
    (env : Env) (message : Message) (w : World) :
  ((length (split (text message)) < 2)%nat →
     let hint := Answer (chat_id message) (JStr "Usage: /admin_pro <chat_id>") in
     cmd_admin_pro ADMIN_ID int env ADMIN_ID message w = (refused w hint, deliver env hint))
  ∧ (∀ cmd arg rest e,
       split (text message) = cmd :: arg :: rest → int arg = Raise e →
       cmd_admin_pro ADMIN_ID int env ADMIN_ID message w = (w, Raise e)).
Proof.
  unfold cmd_admin_pro. rewrite Z.eqb_refl. simpl. split.
  - intros Hlen. by rewrite (proj2 (Nat.ltb_lt _ _) Hlen).
  - intros cmd arg rest e Hsplit Hint. rewrite Hsplit. simpl.
    unfold mbind, M_bind, liftR. by rewrite Hint.
Qed.

Lemma admin_grant_needs_an_integer_witness :
  let t0 := mkTracker "data/usage.json" "data/pro_groups.json" ∅ ∅ in
  let w := mkWorld t0 (AIChat_init "anthropic" "key" "model") ∅ [] in
  let env := mkEnv (Date 2024 5 17) (Date 2024 5 17)
               (Return (mkBotInfo (Some "gendolf_bot") 99))
               (anthropic_says "ok") (λ _, Return ()) in
  cmd_admin_pro 1 int_of_decimal env 1
    (mkMessage "/admin_pro" 1 "private" None "Op" None) w
  = (refused w (Answer 1 (JStr "Usage: /admin_pro <chat_id>")), Return ())
  ∧ cmd_admin_pro 1 int_of_decimal env 1
      (mkMessage "/admin_pro @devs" 1 "private" None "Op" None) w
    = (w, Raise (Exception "ValueError")).
Proof.
  intros t0 w env. split.
  - refine (proj1 (admin_grant_needs_an_integer 1 int_of_decimal env
                     (mkMessage "/admin_pro" 1 "private" None "Op" None) w) _).
    vm_compute. lia.
  - exact (proj2 (admin_grant_needs_an_integer 1 int_of_decimal env
                    (mkMessage "/admin_pro @devs" 1 "private" None "Op" None) w)
             "/admin_pro" "@devs" [] (Exception "ValueError") eq_refl eq_refl).
Defined.

(** X19. [/stats] is free: it sends one answer and leaves the tracker,
    the files and the AI object as they were, so it never uses quota.
    For a pro group the status line reads "Pro"; for any other group it
    reports max(0, FREE_LIMIT - today's count) out of FREE_LIMIT. *)
Theorem stats_is_read_only (L : Z) (env : Env) (clock_stats : date)
    (message : Message) (w : World) :
  let st := get_stats (tracker w) clock_stats in
  let used := default 0 (usage (tracker w)
                           !! usage_key (chat_id message) (_today (clock_can_use env))) in
  let status :=
    if bool_decide (str (chat_id message) ∈ pro_groups (tracker w)) then "⭐ Pro"
    else "Free (" +:+ str (Z.max 0 (L - used)) +:+ "/" +:+ str L +:+ " remaining today)" in
  let answer := Answer (chat_id message) (JStr (
    "📊 <b>Stats</b>" +:+ nl +:+ nl +:+
    "This group: " +:+ status +:+ nl +:+
    "Active groups today: " +:+ str (active_groups_today st) +:+ nl +:+
    "Total messages served: " +:+ str (total_messages st))) in
  cmd_stats L env clock_stats message w = (refused w answer, deliver env answer)
  ∧ (∀ now chat, can_use L (tracker (cmd_stats L env clock_stats message w).1) now chat
                 = can_use L (tracker w) now chat).
Proof.
  intros st used status answer.
  assert (cmd_stats L env clock_stats message w = (refused w answer, deliver env answer))
    as Hrun.
  { subst st used status answer. unfold cmd_stats, mbind, M_bind, can_useM, globals.
    unfold can_use.
    destruct (decide (str (chat_id message) ∈ pro_groups (tracker w))) as [Hpro|Hpro].
    - by repeat rewrite (bool_decide_eq_true_2 _ Hpro).
    - by repeat rewrite (bool_decide_eq_false_2 _ Hpro). }
  split; [done|]. intros now chat. by rewrite Hrun.
Qed.

(** ** Eviction and the pro set *)

(** X20. Eviction is oldest first and no more than needed: when the user
    turn is appended, exactly the oldest turns beyond [max_memory] are
    dropped and the rest keeps its order, so the stored list is the old
    list with the new turn, without its first
    [length old + 1 - max_memory] entries. *)
Theorem eviction_drops_the_oldest (self : AIChat) (chat : Z) (user msg : string) :
  (0 < max_memory self)%nat →
  remember_user self chat user msg
  = drop (length (turns_of self chat) + 1 - max_memory self)
         (turns_of self chat ++ [UserTurn user msg]).
Proof.
  intros Hcap. unfold remember_user. fold (turns_of self chat).
  destruct (max_memory self <? _)%nat eqn:Hlt.
  - destruct (max_memory self) as [|m] eqn:Hm; [lia|].
    unfold last_n. rewrite length_app. simpl length. done.
  - apply Nat.ltb_ge in Hlt. rewrite length_app in Hlt. simpl in Hlt.
    by replace (length (turns_of self chat) + 1 - max_memory self)%nat with O by lia.
Qed.

Lemma eviction_drops_the_oldest_witness :
  let ai0 := AIChat_init "anthropic" "key" "model" in
  let c := mkCall (anthropic_says "ok") 7 "Ann" "hello" "Group" in
  let full := respond_all (replicate 11 c) ai0 in
  remember_user full 7 "Bob" "bye"
  = drop 2 (turns_of full 7 ++ [UserTurn "Bob" "bye"]).
Proof.
  intros ai0 c full.
  assert (0 < max_memory full)%nat as Hcap by (vm_compute; lia).
  exact (eviction_drops_the_oldest full 7 "Bob" "bye" Hcap).
Defined.

(** X21. [add_pro] only ever touches the pro set and its file: the
    counters and the usage file stay as they are, granting a group twice
    is the same as granting it once, and the number of pro groups that
    [get_stats] reports grows by one exactly when the group was not pro
    before. *)
Theorem add_pro_only_grows_the_pro_set (self : UsageTracker) (g : Z) (d : disk)
    (now : date) :
  file self ≠ pro_file self →
  usage (add_pro self g d).1 = usage self
  ∧ (add_pro self g d).2 !! file self = d !! file self
  ∧ add_pro (add_pro self g d).1 g (add_pro self g d).2 = add_pro self g d
  ∧ stats_pro_groups (get_stats (add_pro self g d).1 now)
    = stats_pro_groups (get_stats self now)
      + (if bool_decide (str g ∈ pro_groups self) then 0 else 1).
Proof.
  intros Hfiles. split; [done|]. split; [|split].
  - simpl. by rewrite lookup_insert_ne.
  - unfold add_pro. simpl.
    rewrite <- (assoc_L (∪)), (idemp_L (∪)).
    by rewrite insert_insert_eq.
  - simpl. case_bool_decide as Hin.
    + rewrite (comm_L (∪)), subseteq_union_1_L by (by apply singleton_subseteq_l). lia.
    + rewrite size_union, size_singleton by (by apply disjoint_singleton_r). lia.
Qed.

Lemma add_pro_only_grows_the_pro_set_witness :
  let t0 := mkTracker "data/usage.json" "data/pro_groups.json" ∅ ∅ in
  let once := add_pro t0 42 ∅ in
  add_pro once.1 42 once.2 = once
  ∧ stats_pro_groups (get_stats once.1 (Date 2024 5 17)) = 1.
Proof.
  intros t0 once.
  assert (file t0 ≠ pro_file t0) as Hfiles by discriminate.
  destruct (add_pro_only_grows_the_pro_set t0 42 ∅ (Date 2024 5 17) Hfiles)
    as (_ & _ & Htwice & Hcount).
  split; [exact Htwice|]. refine (eq_trans Hcount _). reflexivity.
Defined.
